(** * Desert Weighmaster Control: the weighbridge log of [page.tsx]

    A shallow embedding of the record store, the entry form and the
    search view of [src/webapp/src/app/page.tsx], and the properties of
    the specification proved (or refuted) on it.

    Modelling conventions.
    - JavaScript strings are [string]s of 8-bit characters; only the
      ASCII part of [trim], [toLowerCase] and [toUpperCase] is modelled
      (characters above 127 are left alone and are never white space).
    - JavaScript numbers are modelled in exact decimal arithmetic: a
      [number] is [NaN] or a value, and a value is an integer of [Z], a
      number with finitely many decimals, or an infinity.  [Number]
      reads every numeric literal JavaScript reads (sign, decimals,
      exponent, [Infinity], hexadecimal, octal and binary integers,
      surrounding white space, the empty text as 0) and gives [NaN] on
      every other text.  What double precision adds is outside the
      model: rounding to 53 bits (so 0.3 - 0.1 is 0.2 here), overflow
      and underflow, minus zero, and the exponent notation [toString]
      uses from 1e21 on.
    - [Math.random] and [new Date] are oracles of a [World] that the
      handlers thread through a small state monad. *)

From Stdlib Require Import List Arith ZArith Lia Bool.
From Stdlib Require Import Strings.String Strings.Ascii.
From Stdlib Require Import Numbers.DecimalString Numbers.DecimalPos.
From Equations Require Import Equations.
Import ListNotations.

Local Open Scope string_scope.
Local Open Scope Z_scope.

(** ** JavaScript strings *)

Module Js.

(** White space removed by [String.prototype.trim], ASCII part:
    TAB, LF, VT, FF, CR and SPACE. *)
Definition isWhite (c : ascii) : bool :=
  let n := nat_of_ascii c in
  ((9 <=? n) && (n <=? 13))%nat || (n =? 32)%nat.

Fixpoint trimStart (s : string) : string :=
  match s with
  | EmptyString => EmptyString
  | String c r => if isWhite c then trimStart r else s
  end.

Fixpoint trimEnd (s : string) : string :=
  match s with
  | EmptyString => EmptyString
  | String c r =>
      match trimEnd r with
      | EmptyString => if isWhite c then EmptyString else String c EmptyString
      | t => String c t
      end
  end.

(** [s.trim()] *)
Definition trim (s : string) : string := trimEnd (trimStart s).

Definition lowerChar (c : ascii) : ascii :=
  let n := nat_of_ascii c in
  if ((65 <=? n) && (n <=? 90))%nat then ascii_of_nat (n + 32) else c.

Definition upperChar (c : ascii) : ascii :=
  let n := nat_of_ascii c in
  if ((97 <=? n) && (n <=? 122))%nat then ascii_of_nat (n - 32) else c.

Fixpoint mapChars (f : ascii -> ascii) (s : string) : string :=
  match s with
  | EmptyString => EmptyString
  | String c r => String (f c) (mapChars f r)
  end.

(** [s.toLowerCase()] and [s.toUpperCase()] *)
Definition toLowerCase : string -> string := mapChars lowerChar.
Definition toUpperCase : string -> string := mapChars upperChar.

(** [hay.includes(needle)] *)
Fixpoint includes (hay needle : string) : bool :=
  String.prefix needle hay ||
  match hay with
  | EmptyString => false
  | String _ r => includes r needle
  end.

(** [parts.join(sep)] *)
Definition join (sep : string) (parts : list string) : string :=
  String.concat sep parts.

(** [s.replace(/c/g, '')] for a single character [c]. *)
Fixpoint removeAll (c : ascii) (s : string) : string :=
  match s with
  | EmptyString => EmptyString
  | String d r => if Ascii.eqb d c then removeAll c r else String d (removeAll c r)
  end.

(** The empty string is the only falsy string. *)
Definition truthy (s : string) : bool := negb (String.eqb s "").

End Js.

(** ** JavaScript numbers, in exact decimal arithmetic *)

(** A decimal digit that is not zero, and a decimal digit. *)
Inductive nonzero : Type :=
| One | Two | Three | Four | Five | Six | Seven | Eight | Nine.

Inductive digit : Type :=
| Zero : digit
| Nz : nonzero -> digit.

(** The numbers an entry can hold: every value but [NaN].  An integer
    is [Int z]; [Dec negative whole frac last] is the number with a
    fractional part, of absolute value [whole].[frac][last], whose last
    decimal is not zero; [Inf] is an infinity.  Each number has one
    representation. *)
Inductive weight : Type :=
| Int (z : Z)
| Dec (negative : bool) (whole : N) (frac : list digit) (last : nonzero)
| Inf (negative : bool).

(** A JavaScript number: [NaN] or a value. *)
Inductive number : Type :=
| NaN : number
| Val : weight -> number.

Coercion Int : Z >-> weight.
Coercion Val : weight >-> number.

Module Num.

Definition nonzeroChar (d : nonzero) : ascii :=
  match d with
  | One => "1" | Two => "2" | Three => "3" | Four => "4" | Five => "5"
  | Six => "6" | Seven => "7" | Eight => "8" | Nine => "9"
  end%char.

Definition digitChar (d : digit) : ascii :=
  match d with
  | Zero => "0"%char
  | Nz n => nonzeroChar n
  end.

Definition charDigit (c : ascii) : option digit :=
  match c with
  | "0" => Some Zero
  | "1" => Some (Nz One) | "2" => Some (Nz Two) | "3" => Some (Nz Three)
  | "4" => Some (Nz Four) | "5" => Some (Nz Five) | "6" => Some (Nz Six)
  | "7" => Some (Nz Seven) | "8" => Some (Nz Eight) | "9" => Some (Nz Nine)
  | _ => None
  end%char.

Definition nonzeroValue (d : nonzero) : Z :=
  match d with
  | One => 1 | Two => 2 | Three => 3 | Four => 4 | Five => 5
  | Six => 6 | Seven => 7 | Eight => 8 | Nine => 9
  end.

Definition digitValue (d : digit) : Z :=
  match d with
  | Zero => 0
  | Nz n => nonzeroValue n
  end.

(** Value of the decimal digits [l] read after [acc]. *)
Fixpoint digitsValue (acc : Z) (l : list digit) : Z :=
  match l with
  | [] => acc
  | d :: r => digitsValue (10 * acc + digitValue d) r
  end.

(** The longest run of decimal digits at the start of [s], and the rest. *)
Fixpoint takeDigits (s : string) : list digit * string :=
  match s with
  | EmptyString => ([], EmptyString)
  | String c r =>
      match charDigit c with
      | Some d => let (ds, rest) := takeDigits r in (d :: ds, rest)
      | None => ([], s)
      end
  end.

(** A leading sign, and the rest. *)
Definition takeSign (s : string) : bool * string :=
  match s with
  | String "-" r => (true, r)
  | String "+" r => (false, r)
  | _ => (false, s)
  end.

(** The fraction digits without their trailing zeros: the digits before
    the last one that is not zero, and that one; [None] when all are
    zero. *)
Fixpoint trimFraction (l : list digit) : option (list digit * nonzero) :=
  match l with
  | [] => None
  | d :: r =>
      match trimFraction r with
      | Some (f, last) => Some (d :: f, last)
      | None => match d with Nz n => Some ([], n) | Zero => None end
      end
  end.

(** The digits before and after the decimal point of [ip.fp] times ten to
    the [e]: the point moves [e] places to the right. *)
Definition shift (ip fp : list digit) (e : Z) : list digit * list digit :=
  if 0 <=? e then
    let k := Z.to_nat e in
    (ip ++ firstn k fp ++ repeat Zero (k - List.length fp), skipn k fp)%list
  else
    let k := Z.to_nat (- e) in
    let padded := (repeat Zero (k - List.length ip) ++ ip)%list in
    (firstn (List.length padded - k) padded,
     skipn (List.length padded - k) padded ++ fp)%list.

(** The number [ip.fp] times ten to the [e]. *)
Definition fromParts (ip fp : list digit) (e : Z) : weight :=
  let (i, f) := shift ip fp e in
  match trimFraction f with
  | None => Int (digitsValue 0 i)
  | Some (f', last) => Dec false (Z.to_N (digitsValue 0 i)) f' last
  end.

Definition negate (w : weight) : weight :=
  match w with
  | Int z => Int (- z)
  | Dec n whole frac last => Dec (negb n) whole frac last
  | Inf n => Inf (negb n)
  end.

Definition applySign (negative : bool) (w : weight) : weight :=
  if negative then negate w else w.

(** [ExponentPart] after its [e]: an optional sign and digits up to the
    end of the text. *)
Definition exponent (s : string) : option Z :=
  let (negative, r) := takeSign s in
  match takeDigits r with
  | ((_ :: _) as ds, EmptyString) =>
      Some (if negative then - digitsValue 0 ds else digitsValue 0 ds)
  | _ => None
  end.

(** [StrUnsignedDecimalLiteral] other than [Infinity]: digits, an optional
    point and digits, with a digit on at least one side, and an optional
    exponent. *)
Definition decimalLiteral (s : string) : option weight :=
  let (ip, r1) := takeDigits s in
  let (fp, r2) := match r1 with
                  | String "." r => takeDigits r
                  | _ => ([], r1)
                  end in
  match ip, fp with
  | [], [] => None
  | _, _ =>
      match r2 with
      | EmptyString => Some (fromParts ip fp 0)
      | String c r3 =>
          if (Ascii.eqb c "e" || Ascii.eqb c "E")%bool
          then match exponent r3 with
               | Some e => Some (fromParts ip fp e)
               | None => None
               end
          else None
      end
  end.

(** Value of a digit of the given radix (2, 8 or 16). *)
Definition radixDigit (radix : Z) (c : ascii) : option Z :=
  let n := Z.of_nat (nat_of_ascii c) in
  let v := if (48 <=? n) && (n <=? 57) then Some (n - 48)
           else if (97 <=? n) && (n <=? 102) then Some (n - 87)
           else if (65 <=? n) && (n <=? 70) then Some (n - 55)
           else None in
  match v with
  | Some d => if d <? radix then Some d else None
  | None => None
  end.

Fixpoint radixValue (radix acc : Z) (s : string) : option Z :=
  match s with
  | EmptyString => Some acc
  | String c r =>
      match radixDigit radix c with
      | Some d => radixValue radix (radix * acc + d) r
      | None => None
      end
  end.

(** The radix a letter after a leading zero announces; 0 for none. *)
Definition radixOf (c : ascii) : Z :=
  if (Ascii.eqb c "x" || Ascii.eqb c "X")%bool then 16
  else if (Ascii.eqb c "o" || Ascii.eqb c "O")%bool then 8
  else if (Ascii.eqb c "b" || Ascii.eqb c "B")%bool then 2
  else 0.

(** [NonDecimalIntegerLiteral]: [0x], [0o] or [0b], in either case, and
    at least one digit of that radix. *)
Definition nonDecimalLiteral (s : string) : option Z :=
  match s with
  | String a (String c (String d r)) =>
      if (Ascii.eqb a "0" && negb (radixOf c =? 0))%bool
      then radixValue (radixOf c) 0 (String d r)
      else None
  | _ => None
  end.

(** [Number(s)]: the text without the white space around it is empty (0),
    a non-decimal integer literal, or an optionally signed [Infinity] or
    decimal literal; anything else is [NaN].  Minus zero is not told from
    zero. *)
Definition Number (s : string) : number :=
  match Js.trim s with
  | EmptyString => Val (Int 0)
  | t =>
      match nonDecimalLiteral t with
      | Some v => Val (Int v)
      | None =>
          let (negative, body) := takeSign t in
          if String.eqb body "Infinity" then Val (Inf negative)
          else match decimalLiteral body with
               | Some w => Val (applySign negative w)
               | None => NaN
               end
      end
  end.

(** [x || 0]: [NaN] and zero are falsy. *)
Definition orZero (x : number) : weight :=
  match x with
  | NaN => Int 0
  | Val (Int z) => if z =? 0 then Int 0 else Int z
  | Val w => w
  end.

(** Decimal places of a number. *)
Definition places (w : weight) : nat :=
  match w with
  | Dec _ _ frac _ => S (List.length frac)
  | _ => O
  end.

(** A finite number times ten to the [k], for [k] at least its places. *)
Definition scaled (w : weight) (k : nat) : Z :=
  match w with
  | Int z => z * 10 ^ Z.of_nat k
  | Dec n whole frac last =>
      let m := digitsValue (Z.of_N whole) (frac ++ [Nz last])
               * 10 ^ Z.of_nat (k - S (List.length frac)) in
      if n then - m else m
  | Inf _ => 0
  end.

Fixpoint uintDigits (u : Decimal.uint) : list digit :=
  match u with
  | Decimal.Nil => []
  | Decimal.D0 l => Zero :: uintDigits l
  | Decimal.D1 l => Nz One :: uintDigits l
  | Decimal.D2 l => Nz Two :: uintDigits l
  | Decimal.D3 l => Nz Three :: uintDigits l
  | Decimal.D4 l => Nz Four :: uintDigits l
  | Decimal.D5 l => Nz Five :: uintDigits l
  | Decimal.D6 l => Nz Six :: uintDigits l
  | Decimal.D7 l => Nz Seven :: uintDigits l
  | Decimal.D8 l => Nz Eight :: uintDigits l
  | Decimal.D9 l => Nz Nine :: uintDigits l
  end.

(** The number [m] divided by ten to the [k]. *)
Definition fromScaled (m : Z) (k : nat) : weight :=
  applySign (m <? 0)
            (fromParts (uintDigits (N.to_uint (Z.to_N (Z.abs m)))) [] (- Z.of_nat k)).

(** [a - b] *)
Definition sub (a b : weight) : number :=
  match a, b with
  | Int x, Int y => Val (Int (x - y))
  | Inf n, Inf m => if Bool.eqb n m then NaN else Val (Inf n)
  | Inf n, _ => Val (Inf n)
  | _, Inf m => Val (Inf (negb m))
  | _, _ =>
      let k := Nat.max (places a) (places b) in
      Val (fromScaled (scaled a k - scaled b k) k)
  end.

Definition isPositive (w : weight) : bool :=
  match w with
  | Int z => 0 <? z
  | Dec n _ _ _ => negb n
  | Inf n => negb n
  end.

Definition isNegative (w : weight) : bool :=
  match w with
  | Int z => z <? 0
  | Dec n _ _ _ => n
  | Inf n => n
  end.

(** [x > 0 ? x : 0]; [NaN > 0] is false. *)
Definition positiveOrZero (x : number) : weight :=
  match x with
  | NaN => Int 0
  | Val w => if isPositive w then w else Int 0
  end.

(** [Math.max(x, 0)] *)
Definition max0 (x : number) : number :=
  match x with
  | NaN => NaN
  | Val w => Val (if isNegative w then Int 0 else w)
  end.

Definition digitsText (l : list digit) : string :=
  string_of_list_ascii (map digitChar l).

(** The zeros at the start of [l], counted, and the digits after them. *)
Fixpoint leadingZeros (l : list digit) : nat * list digit :=
  match l with
  | Zero :: r => let (k, rest) := leadingZeros r in (S k, rest)
  | _ => (O, l)
  end.

(** A number below one with the significant digits [sig] after [k]
    zeros, [k] at least six: [d.ddde-n]. *)
Definition smallText (k : nat) (sig : list digit) : string :=
  match sig with
  | [] => "0"
  | d :: [] =>
      String (digitChar d)
             ("e-" ++ NilZero.string_of_uint (N.to_uint (N.of_nat (S k))))
  | d :: r =>
      String (digitChar d)
             ("." ++ digitsText r ++ "e-"
                  ++ NilZero.string_of_uint (N.to_uint (N.of_nat (S k))))
  end.

(** [n.toString()]: an integer by its digits, a number with decimals
    positionally, or with an exponent when it is below 0.000001. *)
Definition toString (w : weight) : string :=
  match w with
  | Int z => NilZero.string_of_int (Z.to_int z)
  | Dec n whole frac last =>
      (if n then "-" else "")
      ++ (let (k, sig) := leadingZeros (frac ++ [Nz last]) in
          if (N.eqb whole 0 && (6 <=? k)%nat)%bool then smallText k sig
          else NilZero.string_of_uint (N.to_uint whole) ++ "."
               ++ digitsText (frac ++ [Nz last]))
  | Inf n => if n then "-Infinity" else "Infinity"
  end.

End Num.

(** ** Data model *)

(** [type Entry] *)
Record Entry : Type := mkEntry {
  id : string;
  plateNumber : string;
  yukBilan : weight;
  yuksiz : weight;
  sofVazin : weight;
  date : string;
  price : string;
  checkNumber : string
}.

(** [type FormState]: the draft, every field held as text. *)
Module Form.
Record FormState : Type := mk {
  plateNumber : string;
  yukBilan : string;
  yuksiz : string;
  date : string;
  summa : string;
  checkNumber : string
}.

(** [keyof FormState] *)
Inductive Field : Type :=
| PlateNumber | YukBilan | Yuksiz | Date | Summa | CheckNumber.

(** [{ ...prev, [field]: value }] *)
Definition set (field : Field) (value : string) (prev : FormState) : FormState :=
  match field with
  | PlateNumber => mk value (yukBilan prev) (yuksiz prev) (date prev) (summa prev) (checkNumber prev)
  | YukBilan => mk (plateNumber prev) value (yuksiz prev) (date prev) (summa prev) (checkNumber prev)
  | Yuksiz => mk (plateNumber prev) (yukBilan prev) value (date prev) (summa prev) (checkNumber prev)
  | Date => mk (plateNumber prev) (yukBilan prev) (yuksiz prev) value (summa prev) (checkNumber prev)
  | Summa => mk (plateNumber prev) (yukBilan prev) (yuksiz prev) (date prev) value (checkNumber prev)
  | CheckNumber => mk (plateNumber prev) (yukBilan prev) (yuksiz prev) (date prev) (summa prev) value
  end.
End Form.

(** The four [useState] cells of [Home]. *)
Record State : Type := mkState {
  entries : list Entry;
  form : Form.FormState;
  editingId : option string;
  searchTerm : string
}.

Definition setEntries (f : list Entry -> list Entry) (st : State) : State :=
  mkState (f (entries st)) (form st) (editingId st) (searchTerm st).
Definition setForm (f : Form.FormState) (st : State) : State :=
  mkState (entries st) f (editingId st) (searchTerm st).
Definition setEditingId (e : option string) (st : State) : State :=
  mkState (entries st) (form st) e (searchTerm st).
Definition setSearchTerm (s : string) (st : State) : State :=
  mkState (entries st) (form st) (editingId st) s.

(** ** The environment: random tokens and the calendar *)

(** [token k] is what the [k]-th evaluation of
    [Math.random().toString(36).slice(2, 10)] yields, [cursor] counts the
    evaluations so far, [today] is [new Date().toISOString().split('T')[0]]. *)
Record World : Type := mkWorld {
  token : nat -> string;
  cursor : nat;
  today : string
}.

Definition M (A : Type) : Type := World -> A * World.

Definition ret {A} (a : A) : M A := fun w => (a, w).
Definition bind {A B} (c : M A) (k : A -> M B) : M B :=
  fun w => let (a, w') := c w in k a w'.

Notation "x <- c ;; k" := (bind c (fun x => k))
  (at level 61, c at next level, right associativity).

Fixpoint mapM {A B} (f : A -> M B) (l : list A) : M (list B) :=
  match l with
  | [] => ret []
  | a :: r => b <- f a ;; bs <- mapM f r ;; ret (b :: bs)
  end.

(** [generateId] *)
Definition generateId : M string :=
  fun w => (token w (cursor w), mkWorld (token w) (S (cursor w)) (today w)).

Definition currentDate : M string := fun w => (today w, w).

(** ** Constants and pure helpers *)

Definition priceOptions : list string := ["30,000"; "40,000"].

(** [seedEntries : Array<Omit<Entry, 'id'>>]: each record still waits
    for its id. *)
Definition seedEntries : list (string -> Entry) :=
  [ (fun i => mkEntry i "90A111AA" 48000 12500 35500 "2024-11-18" "30,000" "CHK-2024-9081");
    (fun i => mkEntry i "30B555BB" 52500 14000 38500 "2024-11-19" "40,000" "CHK-2024-9124") ].

(** [seedEntries.map((entry) => ({ ...entry, id: generateId() }))] *)
Definition freshSeedEntries : M (list Entry) :=
  mapM (fun entry => i <- generateId ;; ret (entry i)) seedEntries.

(** [makeInitialFormState] *)
Definition makeInitialFormState : M Form.FormState :=
  d <- currentDate ;;
  ret (Form.mk "" "" "" d (hd "" priceOptions) "").

(** [computeNetWeight] *)
Definition computeNetWeight (loaded empty : string) : weight :=
  let loadedValue := Num.orZero (Num.Number (Js.removeAll "," loaded)) in
  let emptyValue := Num.orZero (Num.Number (Js.removeAll "," empty)) in
  let diff := Num.sub loadedValue emptyValue in
  Num.positiveOrZero diff.

(** The characters of the class [[.*+?^${}()|[\]\\]]. *)
Definition isSpecial (c : ascii) : bool :=
  existsb (Ascii.eqb c)
    ["."; "*"; "+"; "?"; "^"; "$"; "{"; "}"; "("; ")"; "|"; "["; "]"; "\"]%char.

(** [escapeRegExp]: every special character gets a backslash in front. *)
Fixpoint escapeRegExp (value : string) : string :=
  match value with
  | EmptyString => EmptyString
  | String c r =>
      if isSpecial c then String "\" (String c (escapeRegExp r))
      else String c (escapeRegExp r)
  end.

(** ** Event handlers of [Home] *)

(** [useState] initial values. *)
Definition initialState : M State :=
  es <- freshSeedEntries ;;
  f <- makeInitialFormState ;;
  ret (mkState es f None "").

(** [const netWeight = computeNetWeight(form.yukBilan, form.yuksiz)] *)
Definition netWeight (st : State) : weight :=
  computeNetWeight (Form.yukBilan (form st)) (Form.yuksiz (form st)).

(** [handleInputChange(field)] applied to an event carrying [value]. *)
Definition handleInputChange (field : Form.Field) (value : string) (st : State) : M State :=
  ret (setForm (Form.set field value (form st)) st).

(** [resetForm] *)
Definition resetForm (st : State) : M State :=
  f <- makeInitialFormState ;;
  ret (setEditingId None (setForm f st)).

(** [handleSubmit] *)
Definition handleSubmit (st : State) : M State :=
  if negb (Js.truthy (Js.trim (Form.plateNumber (form st)))) then ret st
  else
    newId <- match editingId st with
             | Some e => ret e
             | None => generateId
             end ;;
    chk <- (let typed := Js.trim (Form.checkNumber (form st)) in
            if Js.truthy typed then ret typed
            else g <- generateId ;; ret ("CHK-" ++ Js.toUpperCase g)) ;;
    let newEntry :=
      mkEntry newId
              (Js.trim (Form.plateNumber (form st)))
              (Num.orZero (Num.Number (Form.yukBilan (form st))))
              (Num.orZero (Num.Number (Form.yuksiz (form st))))
              (netWeight st)
              (Form.date (form st))
              (Form.summa (form st))
              chk in
    let update (prev : list Entry) : list Entry :=
      match editingId st with
      | Some e =>
          if Js.truthy e
          then map (fun entry => if String.eqb (id entry) e then newEntry else entry) prev
          else newEntry :: prev
      | None => newEntry :: prev
      end in
    resetForm (setEntries update st).

(** [handleEdit] *)
Definition handleEdit (i : string) (st : State) : M State :=
  match find (fun item => String.eqb (id item) i) (entries st) with
  | None => ret st
  | Some entry =>
      ret (setEditingId (Some i)
             (setForm (Form.mk (plateNumber entry)
                               (Num.toString (yukBilan entry))
                               (Num.toString (yuksiz entry))
                               (date entry)
                               (price entry)
                               (checkNumber entry)) st))
  end.

(** [handleDelete] *)
Definition handleDelete (i : string) (st : State) : M State :=
  let st' := setEntries (filter (fun entry => negb (String.eqb (id entry) i))) st in
  match editingId st with
  | Some e => if String.eqb e i then resetForm st' else ret st'
  | None => ret st'
  end.

(** [handleRelay] *)
Definition handleRelay (st : State) : M State :=
  es <- freshSeedEntries ;;
  resetForm (setSearchTerm "" (setEntries (fun _ => es) st)).

(** What the user can do to the page. *)
Inductive Event : Type :=
| InputChange (field : Form.Field) (value : string)
| Search (value : string)
| Submit
| Edit (i : string)
| Delete (i : string)
| Clear
| Relay.

Definition handle (ev : Event) (st : State) : M State :=
  match ev with
  | InputChange field value => handleInputChange field value st
  | Search value => ret (setSearchTerm value st)
  | Submit => handleSubmit st
  | Edit i => handleEdit i st
  | Delete i => handleDelete i st
  | Clear => resetForm st
  | Relay => handleRelay st
  end.

(** A session: the page is mounted in the world [w0], then each event
    is handled in the world of its moment (rendering may have consumed
    random tokens in between, and the calendar may have moved on). *)
Definition run (w0 : World) (trace : list (Event * World)) : State :=
  fold_left (fun st '(ev, w) => fst (handle ev st w)) trace (fst (initialState w0)).

(** ** The derived view *)

(** [const searchTermLower = searchTerm.trim().toLowerCase()] *)
Definition searchTermLower (st : State) : string :=
  Js.toLowerCase (Js.trim (searchTerm st)).

Definition haystack (entry : Entry) : string :=
  Js.toLowerCase
    (Js.join " " [ plateNumber entry;
                   Num.toString (yukBilan entry);
                   Num.toString (yuksiz entry);
                   Num.toString (sofVazin entry);
                   date entry;
                   price entry;
                   checkNumber entry ]).

(** [filteredEntries] *)
Definition filteredEntries (st : State) : list Entry :=
  if negb (Js.truthy (searchTermLower st)) then entries st
  else filter (fun entry => Js.includes (haystack entry) (searchTermLower st)) (entries st).

(** ** Regular expressions, as far as [highlightMatch] builds them *)

Module RegExp.

(** The syntax characters of a pattern. *)
Definition isSyntaxChar (c : ascii) : bool :=
  existsb (Ascii.eqb c)
    ["^"; "$"; "\"; "."; "*"; "+"; "?"; "("; ")"; "["; "]"; "{"; "}"; "|"]%char.

(** Body of a capture group that must close the pattern: pattern
    characters stand for themselves, a backslash before a syntax
    character is an identity escape; anything else (a bare syntax
    character, a class escape, an unclosed group) is not modelled. *)
Fixpoint groupBody (s : string) : option string :=
  match s with
  | EmptyString => None
  | String c r =>
      if Ascii.eqb c ")" then
        match r with EmptyString => Some EmptyString | _ => None end
      else if Ascii.eqb c "\" then
        match r with
        | String d r' =>
            if isSyntaxChar d
            then match groupBody r' with Some t => Some (String d t) | None => None end
            else None
        | EmptyString => None
        end
      else if isSyntaxChar c then None
      else match groupBody r with Some t => Some (String c t) | None => None end
  end.

(** [new RegExp(pattern, 'gi')] for a pattern of the form [(text)]: the
    literal text its single capture group matches, ignoring case. *)
Definition compile (pattern : string) : option string :=
  match pattern with
  | String "(" r => groupBody r
  | _ => None
  end.

(** Matching ignores case by comparing canonical (upper case) characters.
    [matchAt lit s] is the matched text and the rest of [s] when the
    literal matches at the start of [s]. *)
Fixpoint matchAt (lit s : string) : option (string * string) :=
  match lit with
  | EmptyString => Some (EmptyString, s)
  | String a l =>
      match s with
      | EmptyString => None
      | String b r =>
          if Ascii.eqb (Js.upperChar a) (Js.upperChar b)
          then match matchAt l r with
               | Some (m, rest) => Some (String b m, rest)
               | None => None
               end
          else None
      end
  end.

Lemma matchAt_shorter lit c r m rest :
  matchAt lit (String c r) = Some (m, rest) -> m <> EmptyString ->
  (String.length rest < String.length (String c r))%nat.
Proof.
  destruct lit as [|a l]; simpl.
  - intros [= <- <-] H. now elim H.
  - destruct (Ascii.eqb _ _); [|discriminate].
    destruct (matchAt l r) as [[m' rest']|] eqn:E; [|discriminate].
    intros [= <- <-] _. clear a c.
    revert r m' rest' E. induction l as [|a l IH]; intros r m' rest' E; simpl in E.
    + injection E as <- <-. lia.
    + destruct r as [|b r]; [discriminate|].
      destruct (Ascii.eqb _ _); [|discriminate].
      destruct (matchAt l r) as [[m2 rest2]|] eqn:E2; [|discriminate].
      injection E as <- <-. specialize (IH _ _ _ E2). simpl in *. lia.
Qed.

(** Case analysis on a value that keeps the equation. *)
Definition inspect {A : Type} (x : A) : { y : A | x = y } := exist _ x eq_refl.

(** [s.split(regex)] for a regex with one capture group: the pieces
    between the matches alternate with the matched texts.  [seg] is the
    piece being collected, [s] what is left to scan. *)
Equations scan (lit seg s : string) : list string by wf (String.length s) lt :=
  scan lit seg EmptyString := [seg];
  scan lit seg (String c r) with inspect (matchAt lit (String c r)) => {
    | exist _ None _ := scan lit (seg ++ String c EmptyString) r;
    | exist _ (Some (EmptyString, _)) _ with seg => {
        | EmptyString := scan lit (String c EmptyString) r;
        | _ := seg :: EmptyString :: scan lit (String c EmptyString) r };
    | exist _ (Some (String m0 m, rest)) H :=
        seg :: String m0 m :: scan lit EmptyString rest }.
Next Obligation.
  apply (matchAt_shorter lit c r (String m0 m) rest); [now symmetry | discriminate].
Qed.

Definition split (lit s : string) : list string :=
  match s with
  | EmptyString => match lit with EmptyString => [] | _ => [EmptyString] end
  | _ => scan lit EmptyString s
  end.

End RegExp.

(** ** Rendering *)

(** What a table cell shows: the bare text, or spans of which some carry
    the class [text-red-600 font-semibold]. *)
Inductive Rendered : Type :=
| Plain (text : string)
| Spans (spans : list (string * bool)).

(** [highlightMatch]; [None] when the regular expression is outside the
    modelled patterns (which [escapeRegExp] rules out, see
    [compile_escapeRegExp]). *)
Definition highlightMatch (st : State) (value : string) : option Rendered :=
  if negb (Js.truthy (searchTermLower st)) then Some (Plain value)
  else
    match RegExp.compile ("(" ++ escapeRegExp (searchTermLower st) ++ ")") with
    | None => None
    | Some regex =>
        let segments := RegExp.split regex value in
        Some (Spans (map (fun segment =>
                            (segment, String.eqb (Js.toLowerCase segment) (searchTermLower st)))
                         segments))
    end.

(** Digits in groups of three, as the [en-US] locale writes them. *)
Fixpoint groupThousands (digits : string) : string :=
  match digits with
  | EmptyString => EmptyString
  | String c r =>
      if ((0 <? String.length r) && (String.length r mod 3 =? 0))%nat
      then String c (String "," (groupThousands r))
      else String c (groupThousands r)
  end.

(** [formatNumber], that is [toLocaleString('en-US', { maximumFractionDigits: 0 })],
    on integers, where nothing is rounded. *)
Definition formatNumber (value : Z) : string :=
  if value <? 0 then "-" ++ groupThousands (Num.toString (- value))
  else groupThousands (Num.toString value).

(** * Vocabulary of the properties *)

Section Vocabulary.

Import Js.

(** Every character of [s] satisfies [p]. *)
Fixpoint allChars (p : ascii -> bool) (s : string) : bool :=
  match s with
  | EmptyString => true
  | String c r => p c && allChars p r
  end.

(** A text is blank when it is empty or made of white space only. *)
Definition blank (s : string) : bool := allChars isWhite s.

(** The draft after [resetForm]: today's date, the first price option,
    every other field empty. *)
Definition idleForm (w : World) : Form.FormState :=
  Form.mk "" "" "" (today w) (hd "" priceOptions) "".

(** Where [handleSubmit] takes the id of the entry it builds. *)
Definition committedId (st : State) (w : World) : string :=
  match editingId st with
  | Some e => e
  | None => token w (cursor w)
  end.

(** The check number of the entry [handleSubmit] builds. *)
Definition committedCheck (st : State) (w : World) : string :=
  let typed := trim (Form.checkNumber (form st)) in
  if truthy typed then typed
  else "CHK-" ++ toUpperCase
         (token w (match editingId st with Some _ => cursor w | None => S (cursor w) end)).

(** The entry [handleSubmit] builds. *)
Definition committedEntry (st : State) (w : World) : Entry :=
  mkEntry (committedId st w)
          (trim (Form.plateNumber (form st)))
          (Num.orZero (Num.Number (Form.yukBilan (form st))))
          (Num.orZero (Num.Number (Form.yuksiz (form st))))
          (computeNetWeight (Form.yukBilan (form st)) (Form.yuksiz (form st)))
          (Form.date (form st))
          (Form.summa (form st))
          (committedCheck st w).

(** [prev.map((entry) => (entry.id === editingId ? newEntry : entry))] *)
Definition replaceById (i : string) (n : Entry) (prev : list Entry) : list Entry :=
  map (fun entry => if String.eqb (id entry) i then n else entry) prev.

(** Whenever the form edits an id, the store has an entry with it. *)
Definition targetPresent (st : State) : Prop :=
  forall i, editingId st = Some i -> exists e, In e (entries st) /\ id e = i.

(** The seed records, the [k]-th one given the [k]-th of [ids]. *)
Definition seedsWithIds (ids : list string) : list Entry :=
  map (fun p => fst p (snd p)) (combine seedEntries ids).

(** [l] keeps some elements of [m], in the order of [m]. *)
Inductive subsequence {A : Type} : list A -> list A -> Prop :=
| subsequence_nil : subsequence [] []
| subsequence_skip x l m : subsequence l m -> subsequence l (x :: m)
| subsequence_keep x l m : subsequence l m -> subsequence (x :: l) (x :: m).


(** The net weight an entry should carry: [Math.max(yukBilan - yuksiz, 0)]. *)
Definition netWeightOk (e : Entry) : Prop :=
  Val (sofVazin e) = Num.max0 (Num.sub (yukBilan e) (yuksiz e)).

Definition commaFree (s : string) : bool :=
  allChars (fun d => negb (Ascii.eqb d ",")) s.

(** The characters a value of an [<input type="number">] is made of:
    digits, sign, decimal point and exponent mark.  The value of such an
    input is empty or a valid floating-point number, whatever is typed. *)
Definition floatChar (c : ascii) : bool :=
  match Num.charDigit c with
  | Some _ => true
  | None => existsb (Ascii.eqb c) ["-"; "+"; "."; "e"; "E"]%char
  end.

Definition numberInputText (s : string) : bool := allChars floatChar s.


Definition isFinite (w : weight) : bool :=
  match w with
  | Inf _ => false
  | _ => true
  end.


End Vocabulary.

(** * Concrete sessions used to exercise the theorems *)

Definition demoTokens : list string :=
  ["k3x9q2lm"; "z81hd0pa"; "c0ffee42"; "9q8w7e6r"; "m5n4b3v2"; "a1s2d3f4"].

Definition demoWorld : World :=
  mkWorld (fun k => nth k demoTokens "zzzzzzzz") 0 "2024-11-20".

(** The page as first mounted in [demoWorld]. *)
Definition demoState : State := fst (initialState demoWorld).

Definition typing (plate loaded empty chk : string) : list (Event * World) :=
  [ (InputChange Form.PlateNumber plate, demoWorld);
    (InputChange Form.YukBilan loaded, demoWorld);
    (InputChange Form.Yuksiz empty, demoWorld);
    (InputChange Form.CheckNumber chk, demoWorld) ].

(** A generator that repeats itself: the third draw equals the first. *)
Definition repeatingWorld : World :=
  mkWorld (fun k => nth k ["k3x9q2lm"; "z81hd0pa"; "k3x9q2lm"; "c0ffee42"] "zzzzzzzz")
          0 "2024-11-20".

(** A session whose first random token is empty: [Math.random()] gave 0,
    whose base-36 text is 0, and [slice(2, 10)] of it is empty. *)
Definition emptyTokenWorld : World :=
  mkWorld (fun k => nth k [""; "z81hd0pa"; "c0ffee42"; "9q8w7e6r"] "zzzzzzzz")
          0 "2024-11-20".

(** * Further vocabulary *)

(** Value of the decimal digits [u] read after [acc]. *)
Fixpoint uintValue (acc : Z) (u : Decimal.uint) : Z :=
  match u with
  | Decimal.Nil => acc
  | Decimal.D0 l => uintValue (10 * acc) l
  | Decimal.D1 l => uintValue (10 * acc + 1) l
  | Decimal.D2 l => uintValue (10 * acc + 2) l
  | Decimal.D3 l => uintValue (10 * acc + 3) l
  | Decimal.D4 l => uintValue (10 * acc + 4) l
  | Decimal.D5 l => uintValue (10 * acc + 5) l
  | Decimal.D6 l => uintValue (10 * acc + 6) l
  | Decimal.D7 l => uintValue (10 * acc + 7) l
  | Decimal.D8 l => uintValue (10 * acc + 8) l
  | Decimal.D9 l => uintValue (10 * acc + 9) l
  end.

(** The texts an entry is searched by, in the order of [haystack]. *)
Definition fieldTexts (e : Entry) : list string :=
  [ plateNumber e; Num.toString (yukBilan e); Num.toString (yuksiz e);
    Num.toString (sofVazin e); date e; price e; checkNumber e ].

(** The world after [k] more random tokens have been drawn and thrown
    away: every render evaluates the argument of [useState<Entry[]>],
    [seedEntries.map(... generateId())], again. *)
Definition advance (k : nat) (w : World) : World :=
  mkWorld (token w) (cursor w + k) (today w).

(** A session on one generator: the world left by a handler, advanced by
    the tokens drawn in between, is the world of the next handler. *)
Fixpoint threaded (trace : list (nat * Event)) (sw : State * World) : State * World :=
  match trace with
  | [] => sw
  | (k, ev) :: rest => threaded rest (handle ev (fst sw) (advance k (snd sw)))
  end.

Definition session (w0 : World) (trace : list (nat * Event)) : State * World :=
  threaded trace (initialState w0).

(** What every entry of the store satisfies, whatever was typed. *)
Definition wellFormed (e : Entry) : Prop :=
  plateNumber e <> ""
  /\ Js.trim (plateNumber e) = plateNumber e
  /\ checkNumber e <> ""
  /\ Num.isNegative (sofVazin e) = false.

(** The first [n] random tokens are pairwise different and not empty. *)
Definition freshTokens (w : World) (n : nat) : Prop :=
  (forall j k, (j < n)%nat -> (k < n)%nat -> token w j = token w k -> j = k)
  /\ (forall k, (k < n)%nat -> token w k <> "").

(** Every id of the store is one of the tokens drawn so far. *)
Definition idsDrawn (st : State) (w : World) : Prop :=
  forall e, In e (entries st) -> exists k, (k < cursor w)%nat /\ id e = token w k.

(** A text that does not go on with a digit. *)
Definition noDigitAhead (r : string) : Prop :=
  match r with
  | EmptyString => True
  | String c _ => Num.charDigit c = None
  end.

(** * Properties *)

(** ** The embedding on examples *)

Example trim_ex : Js.trim "  30B 555BB  " = "30B 555BB".
Proof. reflexivity. Qed.

Example number_ex :
  map Num.Number
      ["48000"; " -12 "; ""; "1,000"; "12kg"; "+7"; "-"; "1e3"; "12.0"; "5."; "0x1F";
       "-0x10"; "1e"; "."; "infinity"]
  = [Val 48000; Val (-12); Val 0; NaN; NaN; Val 7; NaN; Val 1000; Val 12; Val 5; Val 31;
     NaN; NaN; NaN; NaN].
Proof. reflexivity. Qed.

Example number_decimals_ex :
  map Num.Number ["12.5"; ".5"; "-12.50"; "1E-3"; "1.25e1"; "-Infinity"]
  = [Val (Dec false 12 [] Five); Val (Dec false 0 [] Five); Val (Dec true 12 [] Five);
     Val (Dec false 0 [Zero; Zero] One); Val (Dec false 12 [] Five); Val (Inf true)].
Proof. reflexivity. Qed.

Example toString_ex :
  map Num.toString
      [Int 0; Int 38500; Int (-4); Dec false 10 [] Five; Dec true 0 [Zero] Five;
       Dec false 0 [Zero; Zero; Zero; Zero; Zero] One;
       Dec false 0 [Zero; Zero; Zero; Zero; Zero; Zero] One;
       Dec false 0 [Zero; Zero; Zero; Zero; Zero; Zero; Nz One] Five; Inf false]
  = ["0"; "38500"; "-4"; "10.5"; "-0.05"; "0.000001"; "1e-7"; "1.5e-7"; "Infinity"].
Proof. reflexivity. Qed.

Example sub_ex :
  [ Num.sub (Dec false 12 [] Five) (Int 2); Num.sub (Int 2) (Dec false 12 [] Five);
    Num.sub (Dec false 0 [] Three) (Dec false 0 [] One);
    Num.sub (Dec false 1 [Zero] Five) (Dec false 0 [Zero] Five);
    Num.sub (Inf false) (Inf false); Num.sub (Int 3) (Inf true) ]
  = [ Val (Dec false 10 [] Five); Val (Dec true 10 [] Five); Val (Dec false 0 [] Two);
      Val 1; NaN; Val (Inf false) ].
Proof. reflexivity. Qed.

Example formatNumber_ex :
  map formatNumber [38550; 0; 999; 1000; 1234567; -52500]
  = ["38,550"; "0"; "999"; "1,000"; "1,234,567"; "-52,500"].
Proof. reflexivity. Qed.

Example split_ex :
  RegExp.split "a" "banana" = ["b"; "a"; "n"; "a"; "n"; "a"; ""].
Proof. reflexivity. Qed.

Example highlight_ex :
  highlightMatch (mkState [] (Form.mk "" "" "" "" "" "") None " 550 ") "38,550"
  = Some (Spans [("38,", false); ("550", true); ("", false)]).
Proof. reflexivity. Qed.

(** ** Strings *)

Section StringFacts.

Import Js.

Lemma truthy_true s : truthy s = true <-> s <> "".
Proof.
  unfold truthy. destruct (String.eqb_spec s ""); simpl; split; congruence.
Qed.

Lemma truthy_false s : truthy s = false <-> s = "".
Proof.
  unfold truthy. destruct (String.eqb_spec s ""); simpl; split; congruence.
Qed.

Lemma trimStart_blank s : trimStart s = "" <-> blank s = true.
Proof.
  unfold blank. induction s as [|c r IH]; simpl.
  - tauto.
  - destruct (isWhite c); simpl; [exact IH | split; discriminate].
Qed.

Lemma trimStart_head s c r : trimStart s = String c r -> isWhite c = false.
Proof.
  induction s as [|d t IH]; simpl; [discriminate|].
  destruct (isWhite d) eqn:E; [exact IH | congruence].
Qed.

Lemma trimEnd_blank s : trimEnd s = "" <-> blank s = true.
Proof.
  unfold blank. induction s as [|c r IH]; simpl.
  - tauto.
  - destruct (trimEnd r) eqn:E.
    + destruct (isWhite c); simpl; [tauto | split; discriminate].
    + split; [discriminate|]. intros H. apply andb_prop in H as [_ H].
      apply IH in H. discriminate.
Qed.

(** [trim] yields the empty string exactly on blank texts. *)
Lemma trim_blank s : trim s = "" <-> blank s = true.
Proof.
  unfold trim. split.
  - intros H. apply trimStart_blank. destruct (trimStart s) as [|c r] eqn:E; [reflexivity|].
    apply trimEnd_blank in H. apply trimStart_head in E.
    unfold blank in H. simpl in H. rewrite E in H. discriminate.
  - intros H. apply trimStart_blank in H. now rewrite H.
Qed.

Lemma mapChars_length f s : String.length (mapChars f s) = String.length s.
Proof. induction s; simpl; congruence. Qed.

Lemma toLowerCase_empty s : toLowerCase s = "" <-> s = "".
Proof. unfold toLowerCase. destruct s; simpl; split; congruence. Qed.

Lemma mapChars_append f s t : mapChars f (s ++ t) = mapChars f s ++ mapChars f t.
Proof. induction s; simpl; congruence. Qed.

Lemma append_empty_r s : s ++ "" = s.
Proof. induction s; simpl; congruence. Qed.

Lemma append_assoc s t u : (s ++ t) ++ u = s ++ (t ++ u).
Proof. induction s; simpl; congruence. Qed.

Lemma prefix_split n h : String.prefix n h = true <-> exists b, h = n ++ b.
Proof.
  revert h. induction n as [|c n IH]; intros h.
  - destruct h; simpl; (split; [intros _; eexists; reflexivity | reflexivity]).
  - destruct h as [|d h]; simpl; [split; [discriminate | intros [b Hb]; discriminate]|].
    destruct (Ascii.ascii_dec c d) as [->|Hcd].
    + rewrite IH. split; intros [b Hb]; exists b; congruence.
    + split; [discriminate | intros [b Hb]; congruence].
Qed.

(** [includes] is plain substring containment. *)
Lemma includes_spec h n :
  includes h n = true <-> exists a b, h = a ++ n ++ b.
Proof.
  induction h as [|c h IH]; cbn [includes].
  - rewrite orb_false_r, prefix_split. split.
    + intros [b Hb]. now exists "", b.
    + intros [a [b Hb]]. destruct a; [now exists b | discriminate].
  - rewrite orb_true_iff, prefix_split, IH. split.
    + intros [[b Hb] | [a [b Hb]]].
      * now exists "", b.
      * exists (String c a), b. simpl. congruence.
    + intros [a [b Hb]]. destruct a as [|d a]; simpl in Hb.
      * left. now exists b.
      * right. exists a, b. congruence.
Qed.

Lemma removeAll_id c s : allChars (fun d => negb (Ascii.eqb d c)) s = true -> removeAll c s = s.
Proof.
  induction s as [|d r IH]; simpl; [reflexivity|].
  destruct (Ascii.eqb d c); simpl; [discriminate | intros H; now rewrite IH].
Qed.

End StringFacts.

(** ** What a submit commits *)

Section Commit.

Import Js.

Lemma resetForm_eq st w :
  resetForm st w = (mkState (entries st) (idleForm w) None (searchTerm st), w).
Proof. reflexivity. Qed.

Lemma handleSubmit_blank st w :
  trim (Form.plateNumber (form st)) = "" -> handleSubmit st w = (st, w).
Proof.
  intros H. unfold handleSubmit. rewrite H. reflexivity.
Qed.

Lemma handleSubmit_commit st w :
  trim (Form.plateNumber (form st)) <> "" ->
  exists w',
    handleSubmit st w =
      (mkState
         (match editingId st with
          | Some e => if truthy e
                      then replaceById e (committedEntry st w) (entries st)
                      else committedEntry st w :: entries st
          | None => committedEntry st w :: entries st
          end)
         (idleForm w) None (searchTerm st), w')
    /\ today w' = today w /\ token w' = token w
    /\ (cursor w <= cursor w' <= cursor w + 2)%nat.
Proof.
  intros H. apply truthy_true in H.
  unfold handleSubmit, committedEntry, committedCheck, committedId, netWeight.
  rewrite H. cbn [negb].
  destruct (editingId st) as [e|];
    destruct (truthy (trim (Form.checkNumber (form st)))) eqn:Hc;
    unfold bind, ret, generateId, resetForm, makeInitialFormState, currentDate, bind, ret;
    cbn; try rewrite Hc; eexists; (split; [reflexivity|]); cbn; repeat split; lia.
Qed.

End Commit.

Example demoState_entries :
  entries demoState =
  [ mkEntry "k3x9q2lm" "90A111AA" 48000 12500 35500 "2024-11-18" "30,000" "CHK-2024-9081";
    mkEntry "z81hd0pa" "30B555BB" 52500 14000 38500 "2024-11-19" "40,000" "CHK-2024-9124" ].
Proof. reflexivity. Qed.

(** The scenario of the specification: plate 01A001AA, 10000 kg loaded,
    3000 kg empty, no check number. *)
Example create_scenario :
  let st := run demoWorld (typing "01A001AA" "10000" "3000" "" ++ [(Submit, demoWorld)]) in
  hd_error (entries st)
  = Some (mkEntry "k3x9q2lm" "01A001AA" 10000 3000 7000 "2024-11-20" "30,000" "CHK-Z81HD0PA")
  /\ List.length (entries st) = 3%nat.
Proof. split; reflexivity. Qed.

(** ** Submitting a blank plate number *)

(** C2: when the plate number of the form is empty or only white space,
    submit leaves the record store, the form fields, [editingId] and the
    search term exactly as they were, and consumes nothing of the
    environment. *)
Theorem submit_blank_plate_unchanged (st : State) (w : World) :
  blank (Form.plateNumber (form st)) = true ->
  handleSubmit st w = (st, w).
Proof.
  intros H. apply handleSubmit_blank. now apply trim_blank.
Qed.

Lemma submit_blank_plate_unchanged_witness :
  let st := run demoWorld [(Edit "z81hd0pa", demoWorld);
                           (InputChange Form.PlateNumber "   ", demoWorld)] in
  blank (Form.plateNumber (form st)) = true /\ handleSubmit st demoWorld = (st, demoWorld).
Proof.
  split; [reflexivity | apply submit_blank_plate_unchanged; reflexivity].
Defined.

(** ** Delete *)

(** C6: [handleDelete i] keeps, in order, exactly the entries whose id is
    not [i]; nothing changes in the store when no entry has that id; when
    the store holds the id once, precisely that entry goes; the draft is
    reset when it was editing [i] and is untouched otherwise. *)
Theorem delete_removes_matching (i : string) (st : State) (w : World) :
  let st' := fst (handleDelete i st w) in
  entries st' = filter (fun e => negb (String.eqb (id e) i)) (entries st)
  /\ (forall e, In e (entries st') <-> In e (entries st) /\ id e <> i)
  /\ ((forall e, In e (entries st) -> id e <> i) -> entries st' = entries st)
  /\ (forall pre e post,
        entries st = (pre ++ e :: post)%list -> id e = i ->
        (forall x, In x (pre ++ post)%list -> id x <> i) ->
        entries st' = (pre ++ post)%list)
  /\ (editingId st = Some i -> editingId st' = None /\ form st' = idleForm w)
  /\ (editingId st <> Some i -> editingId st' = editingId st /\ form st' = form st)
  /\ searchTerm st' = searchTerm st
  /\ snd (handleDelete i st w) = w.
Proof.
  set (keep := fun e => negb (String.eqb (id e) i)).
  assert (Hkeep : forall e, keep e = true <-> id e <> i).
  { intros e. unfold keep. destruct (String.eqb_spec (id e) i); simpl; split; congruence. }
  assert (Hall : forall l, (forall x, In x l -> id x <> i) -> filter keep l = l).
  { induction l as [|x l IH]; simpl; intros H; [reflexivity|].
    destruct (keep x) eqn:E.
    - rewrite IH; [reflexivity | intros y Hy; apply H; now right].
    - assert (Hx : keep x = true) by (apply Hkeep, H; now left). congruence. }
  assert (E : entries (fst (handleDelete i st w)) = filter keep (entries st)).
  { unfold handleDelete. destruct (editingId st) as [e|]; [destruct (String.eqb e i)|]; reflexivity. }
  assert (Hed : editingId st <> Some i ->
            handleDelete i st w = (mkState (filter keep (entries st)) (form st)
                                           (editingId st) (searchTerm st), w)).
  { intros Hne. unfold handleDelete, setEntries, ret. cbn.
    destruct (editingId st) as [e|]; [|reflexivity].
    destruct (String.eqb_spec e i); [congruence | reflexivity]. }
  cbv zeta. rewrite E.
  split; [reflexivity|].
  split; [intros e; rewrite filter_In, Hkeep; tauto|].
  split; [apply Hall|].
  split.
  { intros pre e post Hs He Hrest. rewrite Hs, filter_app. simpl.
    replace (keep e) with false.
    - rewrite <- filter_app. now apply Hall.
    - symmetry. unfold keep. rewrite He, String.eqb_refl. reflexivity. }
  split.
  { intros H. unfold handleDelete. rewrite H, String.eqb_refl. split; reflexivity. }
  split.
  { intros H. rewrite (Hed H). split; reflexivity. }
  unfold handleDelete.
  destruct (editingId st) as [e|]; [destruct (String.eqb e i)|]; split; reflexivity.
Qed.

(** ** The entry being edited is in the store *)

Section Reachable.

Import Js.

Lemma run_snoc w0 tr ev w :
  run w0 (tr ++ [(ev, w)])%list = fst (handle ev (run w0 tr) w).
Proof. unfold run. rewrite fold_left_app. reflexivity. Qed.

Lemma handleDelete_cases i st w :
  let kept := filter (fun e => negb (String.eqb (id e) i)) (entries st) in
  handleDelete i st w =
    (match editingId st with
     | Some e => if String.eqb e i
                 then mkState kept (idleForm w) None (searchTerm st)
                 else mkState kept (form st) (Some e) (searchTerm st)
     | None => mkState kept (form st) None (searchTerm st)
     end, w).
Proof.
  unfold handleDelete, setEntries, ret. cbn.
  destruct (editingId st) as [e|]; [destruct (String.eqb e i)|]; reflexivity.
Qed.

Lemma handleEdit_cases i st w :
  handleEdit i st w =
    (match find (fun item => String.eqb (id item) i) (entries st) with
     | None => st
     | Some entry =>
         mkState (entries st)
                 (Form.mk (plateNumber entry) (Num.toString (yukBilan entry))
                          (Num.toString (yuksiz entry)) (date entry) (price entry)
                          (checkNumber entry))
                 (Some i) (searchTerm st)
     end, w).
Proof.
  unfold handleEdit. destruct (find _ (entries st)); reflexivity.
Qed.

Lemma handleSubmit_editingId st w :
  editingId (fst (handleSubmit st w)) = None \/ handleSubmit st w = (st, w).
Proof.
  destruct (String.eqb_spec (trim (Form.plateNumber (form st))) "") as [E|E].
  - right. now apply handleSubmit_blank.
  - left. destruct (handleSubmit_commit st w E) as [w' [-> _]]. reflexivity.
Qed.

Lemma handle_targetPresent ev st w :
  targetPresent st -> targetPresent (fst (handle ev st w)).
Proof.
  intros Inv. destruct ev as [field value|value| |i|i| |]; cbn [handle].
  - exact Inv.
  - exact Inv.
  - destruct (handleSubmit_editingId st w) as [E|E].
    + intros i Hi. congruence.
    + rewrite E. exact Inv.
  - rewrite handleEdit_cases. cbn [fst].
    destruct (find _ (entries st)) as [entry|] eqn:F; [|exact Inv].
    intros j Hj. cbn in Hj. injection Hj as <-.
    apply find_some in F as [Hin Hid]. apply String.eqb_eq in Hid.
    exists entry. cbn. split; assumption.
  - rewrite handleDelete_cases. cbv zeta. cbn [fst].
    destruct (editingId st) as [e|] eqn:Ed; [|intros j Hj; discriminate].
    destruct (String.eqb_spec e i) as [Heq|Hne]; [intros j Hj; discriminate|].
    intros j Hj. cbn in Hj. injection Hj as <-.
    destruct (Inv e Ed) as [x [Hin Hx]]. exists x. cbn. split; [|assumption].
    apply filter_In. split; [assumption|].
    rewrite Hx. destruct (String.eqb_spec e i); [contradiction | reflexivity].
  - intros i Hi. discriminate.
  - intros i Hi. discriminate.
Qed.

Lemma run_targetPresent w0 trace : targetPresent (run w0 trace).
Proof.
  induction trace as [|[ev w] tr IH] using rev_ind.
  - intros i Hi. discriminate.
  - rewrite run_snoc. now apply handle_targetPresent.
Qed.

Lemma replaceById_In i n l :
  (exists e, In e l /\ id e = i) -> In n (replaceById i n l).
Proof.
  intros [e [Hin He]]. unfold replaceById. apply in_map_iff.
  exists e. split; [|assumption]. rewrite He, String.eqb_refl. reflexivity.
Qed.

(** C10: in every state of every session (any sequence of field edits,
    searches, submits, edit selections, deletions, clears and relays
    after mounting), a non-null [editingId] is the id of some entry of
    the store; hence when submit takes its update branch the [map] meets
    that entry and the committed entry is in the store afterwards. *)
Theorem editing_target_in_store (w0 : World) (trace : list (Event * World)) (i : string) :
  editingId (run w0 trace) = Some i ->
  (exists e, In e (entries (run w0 trace)) /\ id e = i)
  /\ (forall w,
        blank (Form.plateNumber (form (run w0 trace))) = false ->
        truthy i = true ->
        In (committedEntry (run w0 trace) w)
           (entries (fst (handleSubmit (run w0 trace) w)))).
Proof.
  intros Hi. pose proof (run_targetPresent w0 trace i Hi) as Hex.
  split; [exact Hex|].
  intros w Hb Ht.
  assert (Hp : trim (Form.plateNumber (form (run w0 trace))) <> "").
  { intros E. apply trim_blank in E. congruence. }
  destruct (handleSubmit_commit _ w Hp) as [w' [-> _]]. cbn [fst entries].
  rewrite Hi, Ht. now apply replaceById_In.
Qed.

Lemma editing_target_in_store_witness :
  let tr := [(Edit "z81hd0pa", demoWorld)] in
  editingId (run demoWorld tr) = Some "z81hd0pa"
  /\ exists e, In e (entries (run demoWorld tr)) /\ id e = "z81hd0pa".
Proof.
  split; [reflexivity|].
  exact (proj1 (editing_target_in_store demoWorld [(Edit "z81hd0pa", demoWorld)]
                  "z81hd0pa" eq_refl)).
Defined.

End Reachable.

(** ** Weights that do not parse, and the check number *)

Section CommittedFields.

Import Js.

Lemma not_blank_trim s : blank s = false -> trim s <> "".
Proof. intros H E. apply trim_blank in E. congruence. Qed.

Lemma blank_truthy_trim s : truthy (trim s) = negb (blank s).
Proof.
  destruct (blank s) eqn:B; cbn.
  - apply truthy_false. now apply trim_blank.
  - apply truthy_true. now apply not_blank_trim.
Qed.

(** Where a commit puts the entry [n] it built. *)
Lemma handleSubmit_placement st w :
  blank (Form.plateNumber (form st)) = false ->
  match editingId st with
  | None => entries (fst (handleSubmit st w)) = committedEntry st w :: entries st
  | Some i =>
      truthy i = true ->
      entries (fst (handleSubmit st w)) = replaceById i (committedEntry st w) (entries st)
  end.
Proof.
  intros Hb. destruct (handleSubmit_commit st w (not_blank_trim _ Hb)) as [w' [-> _]].
  cbn [fst entries]. destruct (editingId st) as [i|]; [|reflexivity].
  intros ->. reflexivity.
Qed.

(** C8: on a commit (the plate number is not blank) a loaded or empty
    weight text that [Number] reads as [NaN] is stored as 0 in the entry
    that is committed; the submission goes through: the entry is
    prepended (create) or replaces the entries of the edited id
    (update). *)
Theorem unparsable_weight_stored_as_zero (st : State) (w : World) :
  blank (Form.plateNumber (form st)) = false ->
  exists n : Entry,
    match editingId st with
    | None => entries (fst (handleSubmit st w)) = n :: entries st
    | Some i =>
        truthy i = true ->
        entries (fst (handleSubmit st w)) = replaceById i n (entries st)
    end
    /\ plateNumber n = trim (Form.plateNumber (form st))
    /\ (Num.Number (Form.yukBilan (form st)) = NaN -> yukBilan n = 0)
    /\ (Num.Number (Form.yuksiz (form st)) = NaN -> yuksiz n = 0).
Proof.
  intros Hb. exists (committedEntry st w).
  split; [exact (handleSubmit_placement st w Hb)|].
  split; [reflexivity|].
  split; intros H; cbn; rewrite H; reflexivity.
Qed.

Lemma unparsable_weight_stored_as_zero_witness :
  let st := run demoWorld (typing "01A001AA" "12kg" "n/a" "") in
  exists n : Entry,
    entries (fst (handleSubmit st demoWorld)) = n :: entries st
    /\ plateNumber n = "01A001AA"
    /\ yukBilan n = 0
    /\ yuksiz n = 0.
Proof.
  cbv zeta.
  destruct (unparsable_weight_stored_as_zero
              (run demoWorld (typing "01A001AA" "12kg" "n/a" "")) demoWorld eq_refl)
    as [n [H1 [H2 [H3 H4]]]].
  exists n. split; [exact H1|]. split; [exact H2|].
  split; [exact (H3 eq_refl) | exact (H4 eq_refl)].
Defined.

(** C9, as amended: on a commit, a blank check number of the form yields
    the non-empty token [CHK-] followed by a freshly drawn random token in
    upper case; a check number that is not blank is stored with its
    leading and trailing white space trimmed. *)
Theorem check_number_generated_or_trimmed (st : State) (w : World) :
  blank (Form.plateNumber (form st)) = false ->
  exists n : Entry,
    match editingId st with
    | None => entries (fst (handleSubmit st w)) = n :: entries st
    | Some i =>
        truthy i = true ->
        entries (fst (handleSubmit st w)) = replaceById i n (entries st)
    end
    /\ (blank (Form.checkNumber (form st)) = true ->
        checkNumber n <> ""
        /\ exists k, (cursor w <= k)%nat
                     /\ checkNumber n = "CHK-" ++ toUpperCase (token w k))
    /\ (blank (Form.checkNumber (form st)) = false ->
        checkNumber n = trim (Form.checkNumber (form st))).
Proof.
  intros Hb. exists (committedEntry st w).
  split; [exact (handleSubmit_placement st w Hb)|].
  cbn [checkNumber committedEntry]. unfold committedCheck. cbv zeta.
  rewrite blank_truthy_trim.
  split; intros ->; cbn [negb]; [|reflexivity].
  split; [discriminate|].
  eexists. split; [|reflexivity]. destruct (editingId st); lia.
Qed.

Lemma check_number_generated_or_trimmed_witness :
  let st := run demoWorld (typing "01A001AA" "10000" "3000" "") in
  exists n : Entry,
    entries (fst (handleSubmit st demoWorld)) = n :: entries st
    /\ (blank "" = true ->
        checkNumber n <> ""
        /\ exists k, (0 <= k)%nat
                     /\ checkNumber n = "CHK-" ++ toUpperCase (token demoWorld k))
    /\ (blank "" = false -> checkNumber n = trim "").
Proof.
  exact (check_number_generated_or_trimmed
           (run demoWorld (typing "01A001AA" "10000" "3000" "")) demoWorld eq_refl).
Defined.

(** C9 as stated fails: a check number typed with white space around it
    is not kept as typed; the store holds the trimmed text. *)
Lemma check_number_not_kept_as_typed :
  let st := run demoWorld (typing "01A001AA" "10000" "3000" " AB12 ") in
  let st' := fst (handleSubmit st demoWorld) in
  Form.checkNumber (form st) = " AB12 "
  /\ blank (Form.checkNumber (form st)) = false
  /\ map checkNumber (entries st') = ["AB12"; "CHK-2024-9081"; "CHK-2024-9124"]
  /\ ~ In (Form.checkNumber (form st)) (map checkNumber (entries st')).
Proof.
  cbv zeta. repeat split.
  intros H. vm_compute in H. repeat destruct H as [H|H]; try discriminate H. exact H.
Qed.

End CommittedFields.

(** ** Relay *)

Section RelaySeed.

Lemma handleRelay_eq st w :
  handleRelay st w =
    (mkState (seedsWithIds [token w (cursor w); token w (S (cursor w))])
             (idleForm w) None "",
     mkWorld (token w) (S (S (cursor w))) (today w)).
Proof. reflexivity. Qed.

(** C7, as amended: relay replaces the whole store with the seed records,
    same field values and same order, the first with the next random
    token as id and the second with the one after; it clears the search
    term and resets the draft.  The ids are new to the session when the
    generator has not repeated itself: if the tokens drawn so far and the
    two drawn now are pairwise different, the new ids differ from each
    other and from every token drawn earlier. *)
Theorem relay_restores_seed (st : State) (w : World) :
  let st' := fst (handleRelay st w) in
  let w' := snd (handleRelay st w) in
  entries st' = seedsWithIds [token w (cursor w); token w (S (cursor w))]
  /\ map (fun e => (plateNumber e, yukBilan e, yuksiz e, sofVazin e, date e, price e, checkNumber e))
         (entries st')
     = [ ("90A111AA", Int 48000, Int 12500, Int 35500,
          "2024-11-18", "30,000", "CHK-2024-9081");
         ("30B555BB", Int 52500, Int 14000, Int 38500,
          "2024-11-19", "40,000", "CHK-2024-9124") ]
  /\ searchTerm st' = ""
  /\ form st' = idleForm w
  /\ editingId st' = None
  /\ cursor w' = (cursor w + 2)%nat
  /\ token w' = token w
  /\ ((forall j k, (j < k < cursor w + 2)%nat -> token w j <> token w k) ->
      NoDup (map id (entries st'))
      /\ forall e k, In e (entries st') -> (k < cursor w)%nat -> id e <> token w k).
Proof.
  rewrite handleRelay_eq. cbn [fst snd entries searchTerm form editingId cursor token].
  repeat (split; [reflexivity|]).
  split; [lia|]. split; [reflexivity|].
  intros Hfresh. split.
  - cbn. constructor.
    + intros [H|[]]. symmetry in H. revert H. apply Hfresh. lia.
    + constructor; [intros [] | constructor].
  - intros e k [<-|[<-|[]]] Hk; cbn; intros H; symmetry in H; revert H; apply Hfresh; lia.
Qed.

Lemma relay_restores_seed_witness :
  let w := snd (initialState demoWorld) in
  NoDup (map id (entries (fst (handleRelay demoState w))))
  /\ forall e k, In e (entries (fst (handleRelay demoState w))) -> (k < cursor w)%nat ->
                 id e <> token w k.
Proof.
  apply (relay_restores_seed demoState (snd (initialState demoWorld))).
  intros j k Hjk. cbn in Hjk.
  destruct k as [|[|[|[|k]]]]; [lia| | | |lia];
    destruct j as [|[|[|j]]]; try lia; cbn; discriminate.
Defined.

(** C7 as stated fails: nothing keeps a relay from handing out an id that
    the session has used before.  Mounted in [repeatingWorld], the page
    gives the first seed record the id k3x9q2lm; the relay that follows
    gives that id again. *)
Lemma relay_id_collides :
  let st0 := fst (initialState repeatingWorld) in
  let w1 := snd (initialState repeatingWorld) in
  let st1 := fst (handleRelay st0 w1) in
  map id (entries st0) = ["k3x9q2lm"; "z81hd0pa"]
  /\ map id (entries st1) = ["k3x9q2lm"; "c0ffee42"]
  /\ exists e0 e1, In e0 (entries st0) /\ In e1 (entries st1) /\ id e1 = id e0.
Proof.
  cbv zeta. split; [reflexivity|]. split; [reflexivity|].
  eexists; eexists. split; [left; reflexivity|]. split; [left; reflexivity|]. reflexivity.
Qed.

End RelaySeed.

(** ** The search view *)

Section SearchView.

Import Js.

Lemma filter_subsequence {A} (p : A -> bool) (m : list A) : subsequence (filter p m) m.
Proof.
  induction m as [|x m IH]; simpl; [constructor|].
  destruct (p x); now constructor.
Qed.

Lemma subsequence_refl {A} (m : list A) : subsequence m m.
Proof. induction m; now constructor. Qed.

Lemma searchTermLower_empty st : searchTermLower st = "" <-> blank (searchTerm st) = true.
Proof.
  unfold searchTermLower. rewrite toLowerCase_empty. apply trim_blank.
Qed.

(** C4: with a search string that is blank the view is the whole store in
    its order; otherwise an entry of the store is in the view exactly
    when the lower-cased text "plate gross empty net date price check"
    (the fields joined by one space, numbers in their [toString] form)
    contains the trimmed, lower-cased search string as a substring; the
    view keeps the order of the store, and it is a function of the state
    that returns no state. *)
Theorem filtered_view_is_substring_search (st : State) :
  (blank (searchTerm st) = true -> filteredEntries st = entries st)
  /\ (blank (searchTerm st) = false ->
      forall e,
        In e (filteredEntries st) <->
        In e (entries st)
        /\ exists a b,
             toLowerCase (plateNumber e ++ " " ++ Num.toString (yukBilan e) ++ " "
                          ++ Num.toString (yuksiz e) ++ " " ++ Num.toString (sofVazin e)
                          ++ " " ++ date e ++ " " ++ price e ++ " " ++ checkNumber e)
             = a ++ toLowerCase (trim (searchTerm st)) ++ b)
  /\ subsequence (filteredEntries st) (entries st).
Proof.
  unfold filteredEntries.
  destruct (truthy (searchTermLower st)) eqn:T; cbn [negb].
  - apply truthy_true in T. split; [|split].
    + intros B. apply searchTermLower_empty in B. contradiction.
    + intros _ e. rewrite filter_In, includes_spec. reflexivity.
    + apply filter_subsequence.
  - apply truthy_false in T. split; [|split].
    + reflexivity.
    + intros B. apply searchTermLower_empty in T. congruence.
    + apply subsequence_refl.
Qed.

(** The two searches of the specification, on the seed records. *)
Example search_plate_ignoring_case :
  map plateNumber (filteredEntries (setSearchTerm "30b555bb" demoState)) = ["30B555BB"]
  /\ filteredEntries (setSearchTerm "zz-no-match" demoState) = []
  /\ filteredEntries (setSearchTerm "   " demoState) = entries demoState.
Proof. repeat split. Qed.

End SearchView.

(** ** Highlighting *)

Section Highlight.

Import Js.

Lemma lower_upper c : lowerChar (upperChar c) = lowerChar c.
Proof. destruct c as [[] [] [] [] [] [] [] []]; reflexivity. Qed.

Lemma upper_lower c : upperChar (lowerChar c) = upperChar c.
Proof. destruct c as [[] [] [] [] [] [] [] []]; reflexivity. Qed.

Lemma lower_lower c : lowerChar (lowerChar c) = lowerChar c.
Proof. destruct c as [[] [] [] [] [] [] [] []]; reflexivity. Qed.

Lemma same_canonical a b :
  Ascii.eqb (upperChar a) (upperChar b) = Ascii.eqb (lowerChar a) (lowerChar b).
Proof.
  destruct (Ascii.eqb_spec (upperChar a) (upperChar b)) as [E|E];
    destruct (Ascii.eqb_spec (lowerChar a) (lowerChar b)) as [F|F]; try reflexivity.
  - exfalso. apply F. rewrite <- (lower_upper a), E. apply lower_upper.
  - exfalso. apply E. rewrite <- (upper_lower a), F. apply upper_lower.
Qed.

Lemma toLowerCase_idempotent s : toLowerCase (toLowerCase s) = toLowerCase s.
Proof.
  unfold toLowerCase. induction s as [|c s IH]; simpl; [reflexivity|].
  now rewrite lower_lower, IH.
Qed.

Lemma syntaxChar_special c : RegExp.isSyntaxChar c = isSpecial c.
Proof. destruct c as [[] [] [] [] [] [] [] []]; reflexivity. Qed.

(** The pattern built from an escaped text is a group that matches
    exactly that text. *)
Lemma compile_escapeRegExp t :
  RegExp.compile ("(" ++ escapeRegExp t ++ ")") = Some t.
Proof.
  cbn [append RegExp.compile].
  induction t as [|c t IH]; [reflexivity|].
  cbn [escapeRegExp]. destruct (isSpecial c) eqn:S.
  - cbn [append RegExp.groupBody].
    destruct (Ascii.eqb_spec "\" ")") as [E|_]; [discriminate E|].
    rewrite Ascii.eqb_refl, syntaxChar_special, S, IH. reflexivity.
  - cbn [append RegExp.groupBody].
    destruct (Ascii.eqb_spec c ")") as [->|_]; [discriminate S|].
    destruct (Ascii.eqb_spec c "\") as [->|_]; [discriminate S|].
    rewrite syntaxChar_special, S, IH. reflexivity.
Qed.

Lemma matchAt_Some lit s m rest :
  RegExp.matchAt lit s = Some (m, rest) ->
  s = m ++ rest /\ toLowerCase m = toLowerCase lit.
Proof.
  revert s m rest. induction lit as [|a l IH]; intros s m rest; cbn [RegExp.matchAt].
  - intros [= <- <-]. split; reflexivity.
  - destruct s as [|b r]; [discriminate|].
    rewrite same_canonical. destruct (Ascii.eqb_spec (lowerChar a) (lowerChar b)) as [E|_]; [|discriminate].
    destruct (RegExp.matchAt l r) as [[m' rest']|] eqn:M; [|discriminate].
    intros [= <- <-]. destruct (IH _ _ _ M) as [-> H].
    unfold toLowerCase in *. cbn. split; congruence.
Qed.

Lemma matchAt_None lit s :
  RegExp.matchAt lit s = None ->
  String.prefix (toLowerCase lit) (toLowerCase s) = false.
Proof.
  revert s. induction lit as [|a l IH]; intros s; cbn [RegExp.matchAt]; [discriminate|].
  destruct s as [|b r]; [reflexivity|].
  rewrite same_canonical. unfold toLowerCase in *. cbn.
  destruct (Ascii.eqb_spec (lowerChar a) (lowerChar b)) as [E|E].
  - rewrite E. destruct (Ascii.ascii_dec (lowerChar b) (lowerChar b)); [|congruence].
    destruct (RegExp.matchAt l r) as [[m' rest']|] eqn:M; [discriminate|].
    intros _. now apply IH.
  - intros _. destruct (Ascii.ascii_dec (lowerChar a) (lowerChar b)); [contradiction | reflexivity].
Qed.


(** One step of [scan] on a text that is not empty. *)
Lemma scan_unfold lit seg c r :
  RegExp.scan lit seg (String c r) =
  match RegExp.matchAt lit (String c r) with
  | None => RegExp.scan lit (seg ++ String c EmptyString) r
  | Some (EmptyString, _) =>
      match seg with
      | EmptyString => RegExp.scan lit (String c EmptyString) r
      | _ => seg :: EmptyString :: RegExp.scan lit (String c EmptyString) r
      end
  | Some (String m0 m, rest) => seg :: String m0 m :: RegExp.scan lit EmptyString rest
  end.
Proof.
  rewrite RegExp.scan_equation_2.
  destruct (RegExp.inspect (RegExp.matchAt lit (String c r))) as [[[[|m0 m] rest]|] e].
  - rewrite RegExp.scan_clause_2_equation_1. destruct seg; simp scan; rewrite e; reflexivity.
  - rewrite RegExp.scan_clause_2_equation_2, e. reflexivity.
  - rewrite RegExp.scan_clause_2_equation_3, e. reflexivity.
Qed.




Lemma split_scan t s : t <> "" -> RegExp.split t s = RegExp.scan t "" s.
Proof.
  intros Ht. destruct s; [|reflexivity].
  cbn [RegExp.split]. simp scan. destruct t; [contradiction | reflexivity].
Qed.



(** Characters that are special in a pattern are searched literally. *)
Example highlight_special_characters :
  highlightMatch (setSearchTerm "(a+b)" demoState) "x(A+B)y"
  = Some (Spans [("x", false); ("(A+B)", true); ("y", false)]).
Proof. reflexivity. Qed.

End Highlight.

(** ** Numbers and their texts *)

Section NumberTexts.

Import Js.

Lemma allChars_impl (p q : ascii -> bool) s :
  (forall c, p c = true -> q c = true) -> allChars p s = true -> allChars q s = true.
Proof.
  intros Hpq. induction s as [|c r IH]; cbn; [reflexivity|].
  intros H. apply andb_prop in H as [H1 H2]. now rewrite (Hpq _ H1), IH.
Qed.

Lemma allChars_append p s t : allChars p (s ++ t) = allChars p s && allChars p t.
Proof. induction s as [|c r IH]; cbn; [reflexivity|]. now rewrite IH, andb_assoc. Qed.

Lemma trimEnd_step c r :
  trimEnd (String c r)
  = match trimEnd r with
    | EmptyString => if isWhite c then EmptyString else String c EmptyString
    | t => String c t
    end.
Proof. reflexivity. Qed.

Lemma trimEnd_no_white s :
  allChars (fun c => negb (isWhite c)) s = true -> trimEnd s = s.
Proof.
  induction s as [|c r IH]; cbn; [reflexivity|].
  intros H. apply andb_prop in H as [H1 H2]. rewrite (IH H2).
  destruct (isWhite c); [discriminate|]. destruct r; reflexivity.
Qed.

Lemma trim_no_white s :
  allChars (fun c => negb (isWhite c)) s = true -> trim s = s.
Proof.
  intros H. unfold trim. replace (trimStart s) with s; [now apply trimEnd_no_white|].
  destruct s as [|c r]; [reflexivity|]. cbn in *.
  destruct (isWhite c); [discriminate | reflexivity].
Qed.

Lemma trimStart_suffix s : exists a, s = a ++ trimStart s.
Proof.
  induction s as [|c r [a IH]]; [now exists ""|]. cbn [trimStart].
  destruct (isWhite c); [|now exists ""].
  exists (String c a). cbn. now rewrite <- IH.
Qed.

Lemma trimEnd_prefix s : exists b, s = trimEnd s ++ b.
Proof.
  induction s as [|c r [b IH]]; [now exists ""|]. rewrite trimEnd_step.
  destruct (trimEnd r) as [|d t] eqn:E.
  - destruct (isWhite c); [now exists (String c r)|].
    exists b. cbn in *. now rewrite <- IH.
  - exists b. cbn in *. now rewrite <- IH.
Qed.

(** The trimmed text is a piece of the text. *)
Lemma trim_inside s : exists a b, s = a ++ trim s ++ b.
Proof.
  destruct (trimStart_suffix s) as [a Ha]. destruct (trimEnd_prefix (trimStart s)) as [b Hb].
  exists a, b. unfold trim. now rewrite <- Hb.
Qed.


Lemma floatChar_not_white c : floatChar c = true -> negb (isWhite c) = true.
Proof.
  destruct c as [[] [] [] [] [] [] [] []]; intros H; try reflexivity; discriminate H.
Qed.

Lemma floatChar_not_comma c : floatChar c = true -> negb (Ascii.eqb c ",") = true.
Proof.
  destruct c as [[] [] [] [] [] [] [] []]; intros H; try reflexivity; discriminate H.
Qed.

Lemma floatChar_not_I c : floatChar c = true -> negb (Ascii.eqb c "I") = true.
Proof.
  destruct c as [[] [] [] [] [] [] [] []]; intros H; try reflexivity; discriminate H.
Qed.

Lemma numberInputText_commaFree s : numberInputText s = true -> commaFree s = true.
Proof. apply allChars_impl, floatChar_not_comma. Qed.

(** *** Digits *)

Lemma charDigit_digitChar d : Num.charDigit (Num.digitChar d) = Some d.
Proof. destruct d as [|[]]; reflexivity. Qed.

Lemma digitChar_floatChar d : floatChar (Num.digitChar d) = true.
Proof. destruct d as [|[]]; reflexivity. Qed.

Lemma digitsText_cons d l :
  Num.digitsText (d :: l) = String (Num.digitChar d) (Num.digitsText l).
Proof. reflexivity. Qed.

Lemma digitsText_app l m : Num.digitsText (l ++ m) = Num.digitsText l ++ Num.digitsText m.
Proof. induction l as [|d l IH]; [reflexivity|]. cbn [app]. rewrite !digitsText_cons, IH. reflexivity. Qed.

Lemma digitsText_floatChar l : numberInputText (Num.digitsText l) = true.
Proof.
  unfold numberInputText. induction l as [|d l IH]; [reflexivity|].
  rewrite digitsText_cons. cbn [allChars]. now rewrite digitChar_floatChar, IH.
Qed.

Lemma takeDigits_digitsText l r :
  noDigitAhead r -> Num.takeDigits (Num.digitsText l ++ r) = (l, r).
Proof.
  intros Hr. induction l as [|d l IH].
  - cbn. destruct r as [|c r]; [reflexivity|]. cbn in *. now rewrite Hr.
  - rewrite digitsText_cons. cbn [append Num.takeDigits].
    now rewrite charDigit_digitChar, IH.
Qed.

Lemma takeDigits_all l : Num.takeDigits (Num.digitsText l) = (l, "").
Proof.
  rewrite <- (append_empty_r (Num.digitsText l)). now apply takeDigits_digitsText.
Qed.

Lemma digitsValue_app acc l m :
  Num.digitsValue acc (l ++ m) = Num.digitsValue (Num.digitsValue acc l) m.
Proof. revert acc. induction l; intros acc; cbn; [reflexivity | apply IHl]. Qed.

Lemma uintDigits_text u : NilEmpty.string_of_uint u = Num.digitsText (Num.uintDigits u).
Proof. induction u; cbn [NilEmpty.string_of_uint Num.uintDigits]; rewrite ?digitsText_cons, ?IHu; reflexivity. Qed.

Lemma uintDigits_value u acc : Num.digitsValue acc (Num.uintDigits u) = uintValue acc u.
Proof.
  revert acc. induction u; intros acc; cbn [Num.uintDigits Num.digitsValue uintValue];
    try reflexivity; rewrite IHu; f_equal; cbn; lia.
Qed.

Lemma uintValue_spec u acc :
  uintValue acc u
  = Z.of_N (Pos.of_uint u) + acc * Z.of_N (10 ^ DecimalPos.Unsigned.usize u)%N.
Proof.
  revert acc.
  induction u; intros acc; cbn [uintValue DecimalPos.Unsigned.usize Pos.of_uint];
    [ cbn; lia | .. ];
    rewrite IHu, N.pow_succ_r', N2Z.inj_mul;
    rewrite ?DecimalPos.Unsigned.of_uint_acc_rev, <- ?DecimalPos.Unsigned.of_uint_alt,
            ?N2Z.inj_add, ?N2Z.inj_mul;
    cbn [Z.of_N]; lia.
Qed.

(** The digits of a natural number: its text, never empty, and its
    value. *)
Lemma N_digits n :
  let ds := Num.uintDigits (N.to_uint n) in
  NilZero.string_of_uint (N.to_uint n) = Num.digitsText ds
  /\ ds <> []
  /\ Num.digitsValue 0 ds = Z.of_N n.
Proof.
  cbv zeta. destruct n as [|p].
  - cbn. repeat split. discriminate.
  - cbn [N.to_uint]. pose proof (DecimalPos.Unsigned.to_uint_nonnil p) as Hn.
    split; [|split].
    + rewrite <- uintDigits_text. unfold NilZero.string_of_uint.
      destruct (Pos.to_uint p); [contradiction | reflexivity ..].
    + destruct (Pos.to_uint p); [contradiction | discriminate ..].
    + rewrite uintDigits_value, uintValue_spec, DecimalPos.Unsigned.of_to. cbn [Z.of_N]. lia.
Qed.

(** *** Reading back what [toString] writes *)

Lemma radixOf_float c : floatChar c = true -> Num.radixOf c = 0.
Proof.
  destruct c as [[] [] [] [] [] [] [] []]; intros H; try reflexivity; discriminate H.
Qed.

Lemma nonDecimal_float s : numberInputText s = true -> Num.nonDecimalLiteral s = None.
Proof.
  intros H. destruct s as [|a [|c [|d r]]]; try reflexivity.
  cbn in H. apply andb_prop in H as [_ H]. apply andb_prop in H as [H _].
  unfold Num.nonDecimalLiteral. rewrite (radixOf_float _ H). cbn.
  now rewrite andb_false_r.
Qed.

Lemma trimFraction_last f last : Num.trimFraction (f ++ [Nz last]) = Some (f, last).
Proof. induction f as [|d f IH]; [reflexivity|]. cbn [app Num.trimFraction]. now rewrite IH. Qed.

Lemma fromParts_plain ip fp :
  Num.fromParts ip fp 0
  = match Num.trimFraction fp with
    | None => Int (Num.digitsValue 0 ip)
    | Some (f, last) => Dec false (Z.to_N (Num.digitsValue 0 ip)) f last
    end.
Proof.
  unfold Num.fromParts, Num.shift. cbn [Z.leb Z.compare Z.to_nat firstn skipn].
  cbn [Nat.sub repeat]. now rewrite !app_nil_r.
Qed.

Lemma decimalLiteral_digits ds :
  ds <> [] -> Num.decimalLiteral (Num.digitsText ds) = Some (Int (Num.digitsValue 0 ds)).
Proof.
  intros Hne. unfold Num.decimalLiteral. rewrite takeDigits_all.
  destruct ds as [|d ds]; [contradiction|]. now rewrite fromParts_plain.
Qed.

Lemma decimalLiteral_point wd f last :
  wd <> [] ->
  Num.decimalLiteral (Num.digitsText wd ++ "." ++ Num.digitsText (f ++ [Nz last]))
  = Some (Dec false (Z.to_N (Num.digitsValue 0 wd)) f last).
Proof.
  intros Hne. unfold Num.decimalLiteral.
  rewrite takeDigits_digitsText by reflexivity. cbn [append].
  rewrite takeDigits_all. destruct wd as [|d wd]; [contradiction|].
  now rewrite fromParts_plain, trimFraction_last.
Qed.

Lemma leadingZeros_spec l :
  let (k, sig) := Num.leadingZeros l in
  l = (repeat Zero k ++ sig)%list /\ match sig with Zero :: _ => False | _ => True end.
Proof.
  induction l as [|d l IH]; [now split|]. cbn [Num.leadingZeros].
  destruct d as [|n]; [|now split].
  destruct (Num.leadingZeros l) as [k sig]. destruct IH as [-> H]. now split.
Qed.

Lemma repeat_zero_last k f last :
  repeat Zero k = (f ++ [Nz last])%list -> False.
Proof.
  intros H. assert (In (Nz last) (repeat Zero k)) by (rewrite H; apply in_or_app; right; now left).
  apply repeat_spec in H0. discriminate.
Qed.

Lemma shift_small d r k :
  Num.shift [d] r (- Z.of_nat (S k)) = ([], (repeat Zero k ++ d :: r)%list).
Proof.
  unfold Num.shift.
  replace (0 <=? - Z.of_nat (S k)) with false by (symmetry; apply Z.leb_gt; lia).
  rewrite Z.opp_involutive, Nat2Z.id. cbn [List.length].
  replace (S k - 1)%nat with k by lia.
  replace (List.length (repeat Zero k ++ [d])%list - S k)%nat with O
    by (rewrite length_app, repeat_length; cbn; lia).
  cbn [firstn skipn]. now rewrite <- app_assoc.
Qed.

Lemma exponent_negative ed :
  ed <> [] ->
  Num.exponent ("-" ++ Num.digitsText ed) = Some (- Num.digitsValue 0 ed).
Proof.
  intros Hne. unfold Num.exponent. cbn [append Num.takeSign].
  rewrite takeDigits_all. destruct ed; [contradiction | reflexivity].
Qed.

Lemma decimalLiteral_small d r k f last :
  (repeat Zero k ++ d :: r)%list = (f ++ [Nz last])%list ->
  Num.decimalLiteral (Num.smallText k (d :: r)) = Some (Dec false 0 f last).
Proof.
  intros Hl.
  destruct (N_digits (N.of_nat (S k))) as [Et [Ene Ev]].
  assert (Hexp : Num.exponent
                   ("-" ++ NilZero.string_of_uint (N.to_uint (N.of_nat (S k))))
                 = Some (- Z.of_nat (S k))).
  { rewrite Et, (exponent_negative _ Ene), Ev, nat_N_Z. reflexivity. }
  unfold Num.decimalLiteral, Num.smallText. destruct r as [|d2 r].
  - change (String (Num.digitChar d) ("e-" ++ ?t))
      with (Num.digitsText [d] ++ String "e" ("-" ++ t)).
    rewrite takeDigits_digitsText by reflexivity.
    cbn [Ascii.eqb Bool.eqb orb andb]. cbn beta iota.
    rewrite Hexp. unfold Num.fromParts. rewrite shift_small, Hl, trimFraction_last.
    reflexivity.
  - change (String (Num.digitChar d)
                   ("." ++ Num.digitsText (d2 :: r) ++ "e-" ++ ?t))
      with (Num.digitsText [d] ++ String "." (Num.digitsText (d2 :: r) ++ String "e" ("-" ++ t))).
    rewrite takeDigits_digitsText by reflexivity.
    rewrite takeDigits_digitsText by reflexivity.
    cbn [Ascii.eqb Bool.eqb orb andb]. cbn beta iota.
    rewrite Hexp. unfold Num.fromParts. rewrite shift_small, Hl, trimFraction_last.
    reflexivity.
Qed.

Lemma numberInputText_append s t :
  numberInputText (s ++ t) = numberInputText s && numberInputText t.
Proof. apply allChars_append. Qed.

Lemma N_text_float n : numberInputText (NilZero.string_of_uint (N.to_uint n)) = true.
Proof. destruct (N_digits n) as [-> _]. apply digitsText_floatChar. Qed.

Lemma smallText_float k sig : numberInputText (Num.smallText k sig) = true.
Proof.
  unfold Num.smallText. destruct sig as [|d [|d2 r]]; [reflexivity | |].
  - change (String (Num.digitChar d) ("e-" ++ ?t)) with (Num.digitsText [d] ++ "e-" ++ t).
    now rewrite !numberInputText_append, digitsText_floatChar, N_text_float.
  - change (String (Num.digitChar d) ("." ++ ?u ++ "e-" ++ ?t))
      with (Num.digitsText [d] ++ "." ++ u ++ "e-" ++ t).
    now rewrite !numberInputText_append, !digitsText_floatChar, N_text_float.
Qed.

(** The text of a number that is not infinite is made of the characters
    of a number input. *)
Lemma toString_numberInputText w :
  isFinite w = true -> numberInputText (Num.toString w) = true.
Proof.
  destruct w as [z|n whole frac last|n]; [| |discriminate]; intros _.
  - destruct z as [|p|p]; [reflexivity | |]; cbn [Num.toString Z.to_int NilZero.string_of_int].
    + apply (N_text_float (Npos p)).
    + change (String "-" ?t) with ("-" ++ t).
      rewrite numberInputText_append. apply (N_text_float (Npos p)).
  - cbn [Num.toString]. rewrite numberInputText_append.
    replace (numberInputText (if n then "-" else "")) with true by now destruct n.
    destruct (Num.leadingZeros (frac ++ [Nz last])) as [k sig].
    destruct (N.eqb whole 0 && (6 <=? k)%nat); [apply smallText_float|].
    now rewrite !numberInputText_append, N_text_float, digitsText_floatChar.
Qed.

Lemma takeSign_digit d r :
  Num.takeSign (String (Num.digitChar d) r) = (false, String (Num.digitChar d) r).
Proof. destruct d as [|[]]; reflexivity. Qed.

Lemma digit_not_Infinity d r : String.eqb (String (Num.digitChar d) r) "Infinity" = false.
Proof. destruct d as [|[]]; reflexivity. Qed.

(** [Number] on a decimal literal that starts with a digit, with or
    without a minus sign in front. *)
Lemma Number_signed (negative : bool) d r w :
  numberInputText (String (Num.digitChar d) r) = true ->
  Num.decimalLiteral (String (Num.digitChar d) r) = Some w ->
  Num.Number ((if negative then "-" else "") ++ String (Num.digitChar d) r)
  = Val (Num.applySign negative w).
Proof.
  intros Hf Hd.
  assert (Ht : numberInputText ((if negative then "-" else "")
                                ++ String (Num.digitChar d) r) = true).
  { rewrite numberInputText_append, Hf. now destruct negative. }
  unfold Num.Number.
  rewrite (trim_no_white _ (allChars_impl _ _ _ floatChar_not_white Ht)).
  destruct negative; cbn [append] in *; rewrite (nonDecimal_float _ Ht).
  - cbn [Num.takeSign]. now rewrite digit_not_Infinity, Hd.
  - now rewrite takeSign_digit, digit_not_Infinity, Hd.
Qed.

Lemma digitsText_head ds :
  ds <> [] -> exists d r, Num.digitsText ds = String (Num.digitChar d) r.
Proof. destruct ds as [|d ds]; [contradiction|]. intros _. now exists d, (Num.digitsText ds). Qed.

Lemma pos_text p :
  exists d r,
    NilZero.string_of_uint (Pos.to_uint p) = String (Num.digitChar d) r
    /\ numberInputText (String (Num.digitChar d) r) = true
    /\ Num.decimalLiteral (String (Num.digitChar d) r) = Some (Int (Z.pos p)).
Proof.
  destruct (N_digits (Npos p)) as [Et [Ene Ev]].
  destruct (digitsText_head _ Ene) as [d [r Eh]].
  exists d, r. change (Pos.to_uint p) with (N.to_uint (Npos p)). rewrite Et, Eh.
  split; [reflexivity|]. rewrite <- Eh. split; [apply digitsText_floatChar|].
  rewrite (decimalLiteral_digits _ Ene), Ev. reflexivity.
Qed.

(** Reading back the text of a number gives the number. *)
Lemma Number_toString (w : weight) :
  Num.Number (Num.toString w) = Val w /\ Num.orZero (Num.Number (Num.toString w)) = w.
Proof.
  assert (H : Num.Number (Num.toString w) = Val w).
  { destruct w as [z|n whole frac last|n]; [| |destruct n; reflexivity].
    - destruct z as [|p|p]; [reflexivity | |];
        destruct (pos_text p) as [d [r [Et [Hf Hd]]]];
        cbn [Num.toString Z.to_int NilZero.string_of_int]; rewrite Et.
      + exact (Number_signed false d r _ Hf Hd).
      + exact (Number_signed true d r _ Hf Hd).
    - cbn [Num.toString].
      pose proof (leadingZeros_spec (frac ++ [Nz last])) as Hz.
      destruct (Num.leadingZeros (frac ++ [Nz last])) as [k sig]. destruct Hz as [Hl Hs].
      destruct (N.eqb whole 0 && (6 <=? k)%nat) eqn:Small.
      + apply andb_prop in Small as [Hw _]. apply N.eqb_eq in Hw. subst whole.
        destruct sig as [|d r].
        { exfalso. rewrite app_nil_r in Hl. symmetry in Hl.
          exact (repeat_zero_last _ _ _ Hl). }
        assert (Eh : exists r', Num.smallText k (d :: r) = String (Num.digitChar d) r').
        { unfold Num.smallText. destruct r; eexists; reflexivity. }
        destruct Eh as [r' Eh]. rewrite Eh.
        rewrite (Number_signed n d r' (Dec false 0 frac last)).
        * now destruct n.
        * rewrite <- Eh. apply smallText_float.
        * rewrite <- Eh. apply decimalLiteral_small. now symmetry.
      + destruct (N_digits whole) as [Et [Ene Ev]].
        destruct (digitsText_head _ Ene) as [d [r Eh]].
        rewrite Et, Eh. cbn [append].
        rewrite (Number_signed n d _ (Dec false whole frac last)).
        * now destruct n.
        * change (String (Num.digitChar d) (r ++ ?t)) with (String (Num.digitChar d) r ++ t).
          rewrite <- Eh. change (String "." ?x) with ("." ++ x).
          now rewrite !numberInputText_append, !digitsText_floatChar.
        * change (String (Num.digitChar d) (r ++ ?t)) with (String (Num.digitChar d) r ++ t).
          rewrite <- Eh. change (String "." ?x) with ("." ++ x).
          rewrite (decimalLiteral_point _ _ _ Ene), Ev, N2Z.id. reflexivity. }
  split; [exact H|]. rewrite H.
  destruct w as [z| |]; [|reflexivity ..]. cbn. destruct z; reflexivity.
Qed.

(** *** Numbers that are not infinite *)







(** [diff > 0 ? diff : 0] is [Math.max(diff, 0)] unless [diff] is [NaN]. *)
Lemma positiveOrZero_max0 d : Val (Num.positiveOrZero (Val d)) = Num.max0 (Val d).
Proof.
  destruct d as [z|n w f l|n]; cbn.
  - destruct (Z.ltb_spec 0 z), (Z.ltb_spec z 0); try reflexivity; try lia.
    f_equal. f_equal. lia.
  - now destruct n.
  - now destruct n.
Qed.

Lemma max0_positiveOrZero x sv : Val sv = Num.max0 x -> Num.positiveOrZero x = sv.
Proof.
  destruct x as [|d]; [discriminate|]. intros H.
  rewrite <- positiveOrZero_max0 in H. congruence.
Qed.

Lemma toString_commaFree w : commaFree (Num.toString w) = true.
Proof.
  destruct w as [z|n whole frac last|n].
  - now apply numberInputText_commaFree, toString_numberInputText.
  - now apply numberInputText_commaFree, toString_numberInputText.
  - now destruct n.
Qed.

Lemma computeNetWeight_toString (a b : weight) :
  computeNetWeight (Num.toString a) (Num.toString b) = Num.positiveOrZero (Num.sub a b).
Proof.
  unfold computeNetWeight.
  rewrite !(removeAll_id _ _ (toString_commaFree _)).
  now rewrite !(proj2 (Number_toString _)).
Qed.

End NumberTexts.

(** ** Net weight *)

Section NetWeight.

Import Js.







(** Weights with decimals and with an exponent, as a number input
    delivers them. *)
Example net_weight_decimals :
  let st := run demoWorld (typing "01A001AA" "1.25e1" "2" "" ++ [(Submit, demoWorld)])%list in
  map (fun e => (yukBilan e, yuksiz e, sofVazin e)) (firstn 1 (entries st))
  = [(Dec false 12 [] Five, Int 2, Dec false 10 [] Five)].
Proof. reflexivity. Qed.

End NetWeight.
(** ** What a submit does to the store *)

Section SubmitStore.

Import Js.

Lemma replaceById_length i n l : List.length (replaceById i n l) = List.length l.
Proof. apply length_map. Qed.

Lemma replaceById_nth i n l k :
  nth_error (replaceById i n l) k
  = option_map (fun e => if String.eqb (id e) i then n else e) (nth_error l k).
Proof. unfold replaceById. apply nth_error_map. Qed.

Lemma replaceById_absent i n l :
  (forall x, In x l -> id x <> i) -> replaceById i n l = l.
Proof.
  unfold replaceById. induction l as [|x l IH]; intros H; cbn; [reflexivity|].
  rewrite IH by (intros y Hy; apply H; now right).
  destruct (String.eqb_spec (id x) i) as [E|_]; [|reflexivity].
  exfalso. apply (H x); [now left | exact E].
Qed.

Lemma replaceById_unique i n pre e post :
  id e = i -> (forall x, In x (pre ++ post)%list -> id x <> i) ->
  replaceById i n (pre ++ e :: post)%list = (pre ++ n :: post)%list.
Proof.
  intros He Hrest. unfold replaceById. rewrite map_app. cbn [map].
  rewrite He, String.eqb_refl.
  fold (replaceById i n pre). fold (replaceById i n post).
  rewrite !replaceById_absent; [reflexivity | |];
    intros x Hx; apply Hrest, in_or_app; [right | left]; assumption.
Qed.

(** The part of C3 that the code keeps: a submit with a plate number that
    is not blank prepends one entry when nothing is edited; when the
    entry of a non-empty id is edited, the entries with that id are
    replaced where they stand (precisely one entry when the id is in the
    store once) and the length of the store stays; either way the draft
    goes back to its defaults. *)
Lemma submit_commits_one_entry (st : State) (w : World) :
  blank (Form.plateNumber (form st)) = false ->
  let st' := fst (handleSubmit st w) in
  exists n : Entry,
    plateNumber n = trim (Form.plateNumber (form st))
    /\ (editingId st = None -> entries st' = n :: entries st)
    /\ (forall i, editingId st = Some i -> i <> "" ->
          id n = i
          /\ List.length (entries st') = List.length (entries st)
          /\ (forall k, nth_error (entries st') k
                        = option_map (fun e => if String.eqb (id e) i then n else e)
                                     (nth_error (entries st) k))
          /\ (forall pre e post,
                entries st = (pre ++ e :: post)%list -> id e = i ->
                (forall x, In x (pre ++ post)%list -> id x <> i) ->
                entries st' = (pre ++ n :: post)%list))
    /\ form st' = idleForm w
    /\ editingId st' = None
    /\ searchTerm st' = searchTerm st.
Proof.
  intros Hb. cbv zeta. exists (committedEntry st w).
  pose proof (handleSubmit_placement st w Hb) as Hp.
  destruct (handleSubmit_commit st w (not_blank_trim _ Hb)) as [w' [E _]].
  split; [reflexivity|]. split; [|split].
  - intros Hn. now rewrite Hn in Hp.
  - intros i Hi Hne. rewrite Hi in Hp. apply truthy_true in Hne. specialize (Hp Hne).
    rewrite Hp. split; [cbn; unfold committedId; now rewrite Hi|].
    split; [apply replaceById_length|]. split; [apply replaceById_nth|].
    intros pre e post -> He Hrest. now apply replaceById_unique.
  - rewrite E. repeat split.
Qed.

(** C3 at the failing input: the first seed record got the empty id and
    is being edited.  [editingId ?? generateId()] keeps the empty id for
    the new entry, but [editingId ? ... : ...] takes the empty string for
    no id at all, so the submit prepends instead of replacing: the store
    grows from two entries to three, the edited entry is still there
    unchanged, and two entries share the empty id. *)
Theorem submit_update_prepends_for_empty_id :
  let st := run emptyTokenWorld
              [(Edit "", emptyTokenWorld);
               (InputChange Form.PlateNumber "01A001AA", emptyTokenWorld)] in
  let st' := fst (handleSubmit st emptyTokenWorld) in
  editingId st = Some ""
  /\ map (fun e => (id e, plateNumber e)) (entries st)
     = [("", "90A111AA"); ("z81hd0pa", "30B555BB")]
  /\ blank (Form.plateNumber (form st)) = false
  /\ map (fun e => (id e, plateNumber e)) (entries st')
     = [("", "01A001AA"); ("", "90A111AA"); ("z81hd0pa", "30B555BB")]
  /\ List.length (entries st') <> List.length (entries st).
Proof.
  cbv zeta. repeat (split; [reflexivity|]). cbn. discriminate.
Qed.

(** The same edit with a non-empty id replaces the entry where it is. *)
Example submit_update_in_place :
  let st := run demoWorld
              [(Edit "z81hd0pa", demoWorld);
               (InputChange Form.PlateNumber " 30B777BB ", demoWorld);
               (Submit, demoWorld)] in
  map (fun e => (id e, plateNumber e)) (entries st)
  = [("k3x9q2lm", "90A111AA"); ("z81hd0pa", "30B777BB")]
  /\ editingId st = None /\ form st = idleForm demoWorld.
Proof. repeat split. Qed.

End SubmitStore.

(** * Further properties of the code *)

(** ** Formatted numbers *)

Section FormattedNumbers.

Import Js.

Lemma removeAll_groupThousands s :
  commaFree s = true -> removeAll "," (groupThousands s) = s.
Proof.
  induction s as [|c r IH]; [reflexivity|].
  intros H. cbn in H. apply andb_prop in H as [Hc Hr]. apply negb_true_iff in Hc.
  cbn [groupThousands].
  destruct ((0 <? String.length r) && (String.length r mod 3 =? 0))%nat;
    cbn [removeAll]; rewrite Hc; cbn [removeAll Ascii.eqb]; rewrite ?Ascii.eqb_refl, (IH Hr);
    reflexivity.
Qed.

Lemma removeAll_formatNumber z : removeAll "," (formatNumber z) = Num.toString z.
Proof.
  unfold formatNumber. destruct z as [|p|p]; cbn [Z.ltb Z.compare Z.opp].
  - reflexivity.
  - apply removeAll_groupThousands, toString_commaFree.
  - cbn [append removeAll Ascii.eqb]. 
    change (removeAll "," (String "-" (groupThousands (Num.toString (Z.pos p)))))
      with (String "-" (removeAll "," (groupThousands (Num.toString (Z.pos p))))).
    rewrite removeAll_groupThousands by apply toString_commaFree. reflexivity.
Qed.

Lemma positiveOrZero_sub_Int (a b : Z) :
  Num.positiveOrZero (Num.sub a b) = Z.max (a - b) 0.
Proof.
  cbn. destruct (Z.ltb_spec 0 (a - b)); f_equal; lia.
Qed.

(** X1: [computeNetWeight] reads numbers as [formatNumber] writes them,
    thousands separators included: on the formatted texts of two
    integers it is their difference floored at zero; the same holds on
    their plain [toString] texts. *)
Theorem computeNetWeight_formatted (loaded empty : Z) :
  computeNetWeight (formatNumber loaded) (formatNumber empty) = Z.max (loaded - empty) 0
  /\ computeNetWeight (Num.toString loaded) (Num.toString empty) = Z.max (loaded - empty) 0.
Proof.
  unfold computeNetWeight.
  rewrite !removeAll_formatNumber.
  rewrite !(removeAll_id _ _ (toString_commaFree _)).
  rewrite !(proj2 (Number_toString _)). cbv zeta.
  split; apply positiveOrZero_sub_Int.
Qed.

End FormattedNumbers.
(** ** Editing an entry *)

Section EditEntry.

Import Js.

Lemma find_first i (pre : list Entry) e post :
  id e = i -> (forall x, In x pre -> id x <> i) ->
  find (fun item => String.eqb (id item) i) (pre ++ e :: post)%list = Some e.
Proof.
  intros He Hpre. induction pre as [|x pre IH]; cbn.
  - now rewrite He, String.eqb_refl.
  - destruct (String.eqb_spec (id x) i) as [E|_].
    + exfalso. apply (Hpre x); [now left | exact E].
    + apply IH. intros y Hy. apply Hpre. now right.
Qed.

Lemma find_absent i (l : list Entry) :
  (forall x, In x l -> id x <> i) ->
  find (fun item => String.eqb (id item) i) l = None.
Proof.
  intros H. induction l as [|x l IH]; cbn; [reflexivity|].
  destruct (String.eqb_spec (id x) i) as [E|_].
  - exfalso. apply (H x); [now left | exact E].
  - apply IH. intros y Hy. apply H. now right.
Qed.

(** X3: [handleEdit] on an id that no entry has changes nothing at all;
    otherwise it leaves the store and the search alone, marks the id as
    edited and copies the first entry with that id into the form, the two
    weights as their [toString] texts. *)
Theorem edit_selects_first_match (i : string) (st : State) (w : World) :
  ((forall x, In x (entries st) -> id x <> i) -> handleEdit i st w = (st, w))
  /\ (forall pre e post,
        entries st = (pre ++ e :: post)%list -> id e = i ->
        (forall x, In x pre -> id x <> i) ->
        handleEdit i st w =
          (mkState (entries st)
                   (Form.mk (plateNumber e) (Num.toString (yukBilan e))
                            (Num.toString (yuksiz e)) (date e) (price e) (checkNumber e))
                   (Some i) (searchTerm st), w)).
Proof.
  split.
  - intros H. rewrite handleEdit_cases, (find_absent _ _ H). reflexivity.
  - intros pre e post Hs He Hpre.
    rewrite handleEdit_cases, Hs, (find_first _ _ _ _ He Hpre). reflexivity.
Qed.

(** X4: selecting an entry for editing and submitting the form as it was
    filled gives the store back unchanged, for an entry as submits make
    them: the only one of its id, the id not empty, plate number and
    check number trimmed and not empty, the net weight equal to
    [max (yukBilan - yuksiz) 0]. *)
Theorem edit_then_submit_keeps_store
    (st : State) (w w' : World) (pre : list Entry) (e : Entry) (post : list Entry) :
  entries st = (pre ++ e :: post)%list ->
  (forall x, In x (pre ++ post)%list -> id x <> id e) ->
  id e <> "" ->
  plateNumber e <> "" -> trim (plateNumber e) = plateNumber e ->
  checkNumber e <> "" -> trim (checkNumber e) = checkNumber e ->
  netWeightOk e ->
  let st1 := fst (handleEdit (id e) st w) in
  editingId st1 = Some (id e)
  /\ entries (fst (handleSubmit st1 w')) = entries st.
Proof.
  intros Hs Huniq Hid Hp Hpt Hc Hct Hn. cbv zeta.
  assert (Hpre : forall x, In x pre -> id x <> id e)
    by (intros x Hx; apply Huniq, in_or_app; now left).
  rewrite handleEdit_cases, Hs, (find_first _ _ _ _ eq_refl Hpre). cbn [fst].
  split; [reflexivity|].
  set (st1 := mkState _ _ _ _).
  assert (Hplate : trim (Form.plateNumber (form st1)) <> "").
  { unfold st1. cbn [form Form.plateNumber]. now rewrite Hpt. }
  destruct (handleSubmit_commit st1 w' Hplate) as [w2 [-> _]].
  cbn [fst entries editingId st1]. rewrite (proj2 (truthy_true _) Hid).
  assert (Hsame : committedEntry st1 w' = e).
  { unfold committedEntry, committedId, committedCheck, st1.
    cbn [form editingId Form.plateNumber Form.yukBilan Form.yuksiz Form.date Form.summa
         Form.checkNumber].
    rewrite Hpt, Hct, (proj2 (truthy_true _) Hc), !(proj2 (Number_toString _)).
    rewrite computeNetWeight_toString, (max0_positiveOrZero _ _ Hn). destruct e; reflexivity. }
  rewrite Hsame. now apply replaceById_unique.
Qed.

Lemma edit_then_submit_keeps_store_witness :
  entries (fst (handleSubmit (fst (handleEdit "z81hd0pa" demoState demoWorld)) demoWorld))
  = entries demoState.
Proof.
  refine (proj2 (edit_then_submit_keeps_store demoState demoWorld demoWorld
            [mkEntry "k3x9q2lm" "90A111AA" 48000 12500 35500 "2024-11-18" "30,000" "CHK-2024-9081"]
            (mkEntry "z81hd0pa" "30B555BB" 52500 14000 38500 "2024-11-19" "40,000" "CHK-2024-9124")
            [] eq_refl _ _ _ eq_refl _ eq_refl eq_refl)); try discriminate.
  intros x [<-|[]]. discriminate.
Defined.

End EditEntry.

(** ** What the store holds in every session *)

Section StoreInvariants.

Import Js.

Lemma trimEnd_idempotent s : trimEnd (trimEnd s) = trimEnd s.
Proof.
  induction s as [|c r IH]; [reflexivity|].
  rewrite trimEnd_step. destruct (trimEnd r) as [|d t] eqn:E.
  - destruct (isWhite c) eqn:W; [reflexivity|]. cbn. now rewrite W.
  - rewrite trimEnd_step, IH. reflexivity.
Qed.

Lemma trimStart_trimEnd s c r :
  s = String c r -> isWhite c = false -> trimStart (trimEnd s) = trimEnd s.
Proof.
  intros -> W. rewrite trimEnd_step.
  destruct (trimEnd r); rewrite ?W; cbn [trimStart]; rewrite W; reflexivity.
Qed.

(** Trimming twice is trimming once. *)
Lemma trim_idempotent s : trim (trim s) = trim s.
Proof.
  unfold trim. destruct (trimStart s) as [|c r] eqn:E; [reflexivity|].
  rewrite (trimStart_trimEnd _ c r eq_refl (trimStart_head _ _ _ E)).
  apply trimEnd_idempotent.
Qed.

Lemma computeNetWeight_nonneg loaded empty :
  Num.isNegative (computeNetWeight loaded empty) = false.
Proof.
  unfold computeNetWeight. cbv zeta.
  match goal with |- context [Num.positiveOrZero ?d] => destruct d as [|[z|[] wh fr la|[]]] end;
    try reflexivity.
  cbn. destruct (Z.ltb_spec 0 z); [|reflexivity]. cbn. apply Z.ltb_ge. lia.
Qed.

Lemma committedEntry_wellFormed st w :
  trim (Form.plateNumber (form st)) <> "" -> wellFormed (committedEntry st w).
Proof.
  intros Hp. unfold wellFormed, committedEntry. cbn.
  split; [exact Hp|]. split; [apply trim_idempotent|]. split.
  - unfold committedCheck. cbv zeta.
    destruct (truthy (trim (Form.checkNumber (form st)))) eqn:T.
    + now apply truthy_true.
    + discriminate.
  - apply computeNetWeight_nonneg.
Qed.

Lemma seeds_wellFormed i j : Forall wellFormed (seedsWithIds [i; j]).
Proof.
  repeat constructor; cbn; try discriminate; try reflexivity.
Qed.

Lemma handle_wellFormed ev st w :
  Forall wellFormed (entries st) -> Forall wellFormed (entries (fst (handle ev st w))).
Proof.
  intros H. destruct ev as [field value|value| |i|i| |]; cbn [handle].
  - exact H.
  - exact H.
  - destruct (String.eqb_spec (trim (Form.plateNumber (form st))) "") as [E|E].
    + now rewrite (handleSubmit_blank st w E).
    + destruct (handleSubmit_commit st w E) as [w' [-> _]]. cbn [fst entries].
      pose proof (committedEntry_wellFormed st w E) as Hn.
      destruct (editingId st) as [e|]; [destruct (truthy e)|]; try (now constructor).
      unfold replaceById. apply Forall_forall. intros x Hx.
      apply in_map_iff in Hx as [y [<- Hy]].
      destruct (String.eqb (id y) e); [exact Hn|].
      rewrite Forall_forall in H. now apply H.
  - rewrite handleEdit_cases. cbn [fst]. destruct (find _ (entries st)); exact H.
  - rewrite handleDelete_cases. cbv zeta. cbn [fst].
    assert (Hf : Forall wellFormed
                   (filter (fun e => negb (String.eqb (id e) i)) (entries st))).
    { apply Forall_forall. intros x Hx. apply filter_In in Hx as [Hx _].
      rewrite Forall_forall in H. now apply H. }
    destruct (editingId st) as [e|]; [destruct (String.eqb e i)|]; exact Hf.
  - exact H.
  - rewrite handleRelay_eq. apply seeds_wellFormed.
Qed.

(** X5: whatever is typed and clicked, every entry of the store has a
    plate number that is not empty and carries no white space at its
    ends, a check number that is not empty, and a net weight that is not
    negative. *)
Theorem store_entries_well_formed (w0 : World) (trace : list (Event * World)) :
  Forall wellFormed (entries (run w0 trace)).
Proof.
  induction trace as [|[ev w] tr IH] using rev_ind.
  - apply seeds_wellFormed.
  - rewrite run_snoc. now apply handle_wellFormed.
Qed.

End StoreInvariants.

(** ** Ids *)

Section UniqueIds.

Import Js.

(** The world a handler leaves: same generator, the cursor moved on by
    the tokens drawn. *)
Lemma handle_world ev st w :
  token (snd (handle ev st w)) = token w
  /\ (cursor w <= cursor (snd (handle ev st w)))%nat.
Proof.
  destruct ev as [field value|value| |i|i| |]; cbn [handle].
  - split; [reflexivity | cbn; lia].
  - split; [reflexivity | cbn; lia].
  - destruct (String.eqb_spec (trim (Form.plateNumber (form st))) "") as [E|E].
    + rewrite (handleSubmit_blank st w E). split; [reflexivity | cbn; lia].
    + destruct (handleSubmit_commit st w E) as [w' [-> [_ [Ht Hc]]]]. cbn [snd].
      split; [exact Ht | lia].
  - rewrite handleEdit_cases. split; [reflexivity | cbn; lia].
  - rewrite handleDelete_cases. split; [reflexivity | cbn; lia].
  - split; [reflexivity | cbn; lia].
  - rewrite handleRelay_eq. split; [reflexivity | cbn; lia].
Qed.

(** A create draws its id first: the cursor moves past it. *)
Lemma handleSubmit_create_cursor st w :
  trim (Form.plateNumber (form st)) <> "" -> editingId st = None ->
  (cursor w < cursor (snd (handleSubmit st w)))%nat.
Proof.
  intros H He. apply truthy_true in H. unfold handleSubmit. rewrite H, He. cbn [negb].
  destruct (truthy (trim (Form.checkNumber (form st))));
    unfold bind, ret, generateId, resetForm, makeInitialFormState, currentDate, bind, ret;
    cbn; lia.
Qed.

Lemma NoDup_map_filter {A B} (f : A -> B) (p : A -> bool) l :
  NoDup (map f l) -> NoDup (map f (filter p l)).
Proof.
  induction l as [|x l IH]; cbn; [trivial|].
  intros H. inversion H as [|? ? Hx Hl]; subst.
  destruct (p x); [|now apply IH]. cbn. constructor; [|now apply IH].
  intros Hin. apply Hx. apply in_map_iff in Hin as [y [Hy Hin]].
  apply in_map_iff. exists y. split; [exact Hy|]. now apply filter_In in Hin as [Hin _].
Qed.

Lemma map_id_replaceById i n l : id n = i -> map id (replaceById i n l) = map id l.
Proof.
  intros Hn. unfold replaceById. rewrite map_map. apply map_ext_in.
  intros x _. destruct (String.eqb_spec (id x) i); congruence.
Qed.

Lemma handle_unique_ids ev st w :
  freshTokens w (cursor (snd (handle ev st w))) ->
  targetPresent st -> idsDrawn st w -> NoDup (map id (entries st)) ->
  idsDrawn (fst (handle ev st w)) (snd (handle ev st w))
  /\ NoDup (map id (entries (fst (handle ev st w)))).
Proof.
  intros [Hinj Hne] Htp Hd Hnd.
  destruct (handle_world ev st w) as [Htok Hcur].
  assert (Hkeep : forall st', entries st' = entries st ->
            idsDrawn st' (snd (handle ev st w)) /\ NoDup (map id (entries st'))).
  { intros st' E. split; [|now rewrite E].
    intros e He. rewrite E in He. destruct (Hd e He) as [k [Hk Hid]].
    exists k. split; [lia | now rewrite Htok]. }
  destruct ev as [field value|value| |i|i| |]; cbn [handle] in *.
  - now apply Hkeep.
  - now apply Hkeep.
  - destruct (String.eqb_spec (trim (Form.plateNumber (form st))) "") as [E|E].
    + rewrite (handleSubmit_blank st w E) in *. now apply Hkeep.
    + pose proof (handleSubmit_create_cursor st w E) as Hcreate.
      destruct (handleSubmit_commit st w E) as [w' [Heq _]].
      rewrite Heq in *. cbn [fst snd entries] in *.
      destruct (editingId st) as [e|] eqn:Ed.
      * destruct (Htp e Ed) as [x [Hx Hxe]].
        destruct (Hd x Hx) as [k [Hk Hxk]].
        assert (Te : truthy e = true).
        { apply truthy_true. rewrite <- Hxe, Hxk. apply Hne. lia. }
        rewrite Te.
        assert (Hn : id (committedEntry st w) = e)
          by (cbn; unfold committedId; now rewrite Ed).
        split; [|now rewrite (map_id_replaceById _ _ _ Hn)].
        intros y Hy. unfold replaceById in Hy. apply in_map_iff in Hy as [z [Hz Hin]].
        destruct (String.eqb_spec (id z) e) as [Ez|_].
        -- subst y. rewrite Hn, <- Ez. destruct (Hd z Hin) as [j [Hj Hzj]].
           exists j. split; [lia | now rewrite Htok].
        -- subst y. destruct (Hd z Hin) as [j [Hj Hzj]].
           exists j. split; [lia | now rewrite Htok].
      * specialize (Hcreate eq_refl).
        assert (Hn : id (committedEntry st w) = token w (cursor w))
          by (cbn; unfold committedId; now rewrite Ed).
        split.
        -- intros y [<-|Hy].
           ++ exists (cursor w). split; [lia | now rewrite Hn, Htok].
           ++ destruct (Hd y Hy) as [j [Hj Hyj]]. exists j. split; [lia | now rewrite Htok].
        -- cbn [map]. constructor; [|exact Hnd].
           intros Hin. apply in_map_iff in Hin as [y [Hy Hin]].
           destruct (Hd y Hin) as [j [Hj Hyj]].
           assert (j = cursor w); [|lia].
           apply Hinj; [lia | lia |]. congruence.
  - rewrite handleEdit_cases in *. cbn [fst snd] in *.
    destruct (find _ (entries st)); now apply Hkeep.
  - rewrite handleDelete_cases in *. cbv zeta in *. cbn [fst snd] in *.
    assert (Hf : forall st',
              entries st' = filter (fun e => negb (String.eqb (id e) i)) (entries st) ->
              idsDrawn st' w /\ NoDup (map id (entries st'))).
    { intros st' E. rewrite E. split; [|now apply NoDup_map_filter].
      intros e He. rewrite E in He. apply filter_In in He as [He _]. now apply Hd. }
    destruct (editingId st) as [e|]; [destruct (String.eqb e i)|]; now apply Hf.
  - now apply Hkeep.
  - rewrite handleRelay_eq in *. cbn [fst snd entries cursor token] in *. split.
    + intros e [<-|[<-|[]]]; cbn; eexists; (split; [|reflexivity]); lia.
    + cbn. constructor; [|constructor; [intros [] | constructor]].
      intros [H|[]]. symmetry in H. apply Hinj in H; lia.
Qed.

Lemma threaded_snoc tr k ev sw :
  threaded (tr ++ [(k, ev)])%list sw
  = handle ev (fst (threaded tr sw)) (advance k (snd (threaded tr sw))).
Proof.
  revert sw. induction tr as [|[k' ev'] tr IH]; intros sw; cbn; [reflexivity | apply IH].
Qed.

Lemma threaded_targetPresent tr sw : targetPresent (fst sw) -> targetPresent (fst (threaded tr sw)).
Proof.
  revert sw. induction tr as [|[k ev] tr IH]; intros sw H; cbn; [exact H|].
  apply IH. now apply handle_targetPresent.
Qed.

Lemma freshTokens_le w w' n m :
  token w' = token w -> (n <= m)%nat -> freshTokens w m -> freshTokens w' n.
Proof.
  intros Ht Hle [Hinj Hne]. split.
  - intros j k Hj Hk. rewrite Ht. apply Hinj; lia.
  - intros k Hk. rewrite Ht. apply Hne. lia.
Qed.

(** X6: in a session on one random generator, as long as the tokens drawn
    up to the end are pairwise different and none is empty, no two
    entries of the store have the same id, and every id is one of the
    tokens drawn. *)
Theorem ids_unique_while_tokens_fresh (w0 : World) (trace : list (nat * Event)) :
  freshTokens w0 (cursor (snd (session w0 trace))) ->
  NoDup (map id (entries (fst (session w0 trace))))
  /\ forall e, In e (entries (fst (session w0 trace))) ->
               exists k, (k < cursor (snd (session w0 trace)))%nat /\ id e = token w0 k.
Proof.
  unfold session.
  enough (H : freshTokens w0 (cursor (snd (threaded trace (initialState w0)))) ->
              token (snd (threaded trace (initialState w0))) = token w0
              /\ idsDrawn (fst (threaded trace (initialState w0)))
                          (snd (threaded trace (initialState w0)))
              /\ NoDup (map id (entries (fst (threaded trace (initialState w0)))))).
  { intros F. destruct (H F) as [Ht [Hd Hn]]. split; [exact Hn|].
    intros e He. destruct (Hd e He) as [k [Hk Hid]]. exists k. now rewrite <- Ht. }
  induction trace as [|[k ev] tr IH] using rev_ind.
  - intros [Hinj Hne]. cbn in *. split; [reflexivity|]. split.
    + intros e [<-|[<-|[]]]; cbn; eexists; (split; [|reflexivity]); lia.
    + constructor; [|constructor; [intros [] | constructor]].
      intros [H|[]]. symmetry in H. apply Hinj in H; lia.
  - rewrite threaded_snoc. set (sw := threaded tr (initialState w0)) in *.
    intros F.
    destruct (handle_world ev (fst sw) (advance k (snd sw))) as [Htok Hcur].
    cbn [advance token cursor] in Htok, Hcur.
    assert (F0 : freshTokens w0 (cursor (snd sw))).
    { apply (freshTokens_le w0 w0 _ _ eq_refl) with (2 := F). lia. }
    destruct (IH F0) as [Ht [Hd Hn]].
    assert (Fa : freshTokens (advance k (snd sw))
                   (cursor (snd (handle ev (fst sw) (advance k (snd sw)))))).
    { apply (freshTokens_le w0 _ _ _ Ht (le_n _) F). }
    assert (Hda : idsDrawn (fst sw) (advance k (snd sw))).
    { intros e He. destruct (Hd e He) as [j [Hj Hid]]. exists j. cbn. split; [lia | exact Hid]. }
    assert (Htp : targetPresent (fst sw)).
    { apply threaded_targetPresent. intros i Hi. discriminate. }
    destruct (handle_unique_ids ev (fst sw) (advance k (snd sw)) Fa Htp Hda Hn) as [Hd' Hn'].
    split; [now rewrite Htok|]. split; assumption.
Qed.

Lemma ids_unique_while_tokens_fresh_witness :
  let trace := [(2%nat, InputChange Form.PlateNumber "01A001AA"); (0%nat, Submit)] in
  NoDup (map id (entries (fst (session demoWorld trace)))).
Proof.
  refine (proj1 (ids_unique_while_tokens_fresh demoWorld
                   [(2%nat, InputChange Form.PlateNumber "01A001AA"); (0%nat, Submit)] _)).
  split.
  - intros j k Hj Hk. change (j < 6)%nat in Hj. change (k < 6)%nat in Hk.
    do 6 (destruct j as [|j];
          [do 6 (destruct k as [|k];
                 [cbn; intros H; first [reflexivity | discriminate H]|]); lia|]).
    lia.
  - intros k Hk. change (k < 6)%nat in Hk.
    do 6 (destruct k as [|k]; [cbn; discriminate|]). lia.
Defined.

End UniqueIds.

(** ** More on the search view *)

Section SearchMore.

Import Js.

Lemma join_part sep parts f :
  In f parts -> exists a b, join sep parts = a ++ f ++ b.
Proof.
  unfold join. induction parts as [|x [|y ys] IH]; intros Hin.
  - destruct Hin.
  - destruct Hin as [<-|[]]. exists "", "". cbn. now rewrite append_empty_r.
  - change (String.concat sep (x :: y :: ys)) with (x ++ sep ++ String.concat sep (y :: ys)).
    destruct Hin as [<-|Hin].
    + now exists "", (sep ++ String.concat sep (y :: ys)).
    + destruct (IH Hin) as [a [b E]]. exists (x ++ sep ++ a), b.
      rewrite E, !append_assoc. reflexivity.
Qed.

(** X7: an entry of the store is found by any of the texts it is searched
    by (plate number, the three weights as plain numbers, date, price,
    check number), typed as it stands, provided the text is not blank. *)
Theorem search_finds_entry_by_field (st : State) (e : Entry) (f : string) :
  In e (entries st) -> In f (fieldTexts e) -> blank f = false ->
  In e (filteredEntries (setSearchTerm f st)).
Proof.
  intros He Hf Hb. unfold filteredEntries.
  assert (Ht : searchTermLower (setSearchTerm f st) <> "").
  { intros E. apply searchTermLower_empty in E. change (blank f = true) in E. congruence. }
  rewrite (proj2 (truthy_true _) Ht). cbn [negb].
  apply filter_In. split; [exact He|]. apply includes_spec.
  destruct (join_part " " _ _ Hf) as [a [b Ej]].
  destruct (trim_inside f) as [a' [b' Ef]].
  exists (toLowerCase (a ++ a')), (toLowerCase (b' ++ b)).
  unfold haystack, searchTermLower. cbn [searchTerm setSearchTerm].
  change (join " " [plateNumber e; Num.toString (yukBilan e); Num.toString (yuksiz e);
                    Num.toString (sofVazin e); date e; price e; checkNumber e])
    with (join " " (fieldTexts e)).
  rewrite Ej. rewrite Ef at 1. unfold toLowerCase.
  rewrite <- !mapChars_append. f_equal. rewrite !append_assoc. reflexivity.
Qed.

Lemma search_finds_entry_by_field_witness :
  let e := mkEntry "z81hd0pa" "30B555BB" 52500 14000 38500 "2024-11-19" "40,000"
                   "CHK-2024-9124" in
  In e (filteredEntries (setSearchTerm "38500" demoState)).
Proof.
  apply (search_finds_entry_by_field demoState
           (mkEntry "z81hd0pa" "30B555BB" 52500 14000 38500 "2024-11-19" "40,000"
                    "CHK-2024-9124") "38500").
  - right. left. reflexivity.
  - do 3 right. left. reflexivity.
  - reflexivity.
Defined.

Lemma white_upper c : isWhite (upperChar c) = isWhite c.
Proof. destruct c as [[] [] [] [] [] [] [] []]; reflexivity. Qed.

Lemma white_lower c : isWhite (lowerChar c) = isWhite c.
Proof. destruct c as [[] [] [] [] [] [] [] []]; reflexivity. Qed.

Lemma trimStart_mapChars f s :
  (forall c, isWhite (f c) = isWhite c) ->
  trimStart (mapChars f s) = mapChars f (trimStart s).
Proof.
  intros Hf. induction s as [|c r IH]; [reflexivity|].
  cbn [mapChars trimStart]. rewrite Hf. destruct (isWhite c); [exact IH | reflexivity].
Qed.

Lemma trimEnd_mapChars f s :
  (forall c, isWhite (f c) = isWhite c) ->
  trimEnd (mapChars f s) = mapChars f (trimEnd s).
Proof.
  intros Hf. induction s as [|c r IH]; [reflexivity|].
  cbn [mapChars]. rewrite !trimEnd_step, IH, Hf.
  destruct (trimEnd r); cbn [mapChars]; [destruct (isWhite c)|]; reflexivity.
Qed.

Lemma trim_mapChars f s :
  (forall c, isWhite (f c) = isWhite c) -> trim (mapChars f s) = mapChars f (trim s).
Proof.
  intros Hf. unfold trim. now rewrite trimStart_mapChars, trimEnd_mapChars.
Qed.

Lemma mapChars_compose f g s : mapChars f (mapChars g s) = mapChars (fun c => f (g c)) s.
Proof. induction s; cbn; congruence. Qed.

Lemma mapChars_ext f g s : (forall c, f c = g c) -> mapChars f s = mapChars g s.
Proof. intros H. induction s; cbn; congruence. Qed.

(** X8: the view does not depend on the case of the search string nor on
    white space around it: typed in upper case, in lower case or trimmed,
    the search string gives the same view. *)
Theorem search_ignores_case_and_padding (st : State) (s : string) :
  filteredEntries (setSearchTerm (toUpperCase s) st) = filteredEntries (setSearchTerm s st)
  /\ filteredEntries (setSearchTerm (toLowerCase s) st) = filteredEntries (setSearchTerm s st)
  /\ filteredEntries (setSearchTerm (trim s) st) = filteredEntries (setSearchTerm s st).
Proof.
  assert (H : forall s', toLowerCase (trim s') = toLowerCase (trim s) ->
                         filteredEntries (setSearchTerm s' st)
                         = filteredEntries (setSearchTerm s st)).
  { intros s' E. unfold filteredEntries, searchTermLower. cbn [searchTerm setSearchTerm entries].
    now rewrite E. }
  split; [|split]; apply H.
  - unfold toUpperCase, toLowerCase. rewrite (trim_mapChars _ _ white_upper), mapChars_compose.
    apply mapChars_ext, lower_upper.
  - unfold toLowerCase. rewrite (trim_mapChars _ _ white_lower), mapChars_compose.
    apply mapChars_ext, lower_lower.
  - now rewrite trim_idempotent.
Qed.

End SearchMore.

(** ** More on highlighting *)

Section HighlightMore.

Import Js.

Lemma matchAt_prefix t s m rest :
  RegExp.matchAt t s = Some (m, rest) ->
  String.prefix (toLowerCase t) (toLowerCase s) = true.
Proof.
  intros M. destruct (matchAt_Some _ _ _ _ M) as [-> Hm].
  apply prefix_split. exists (toLowerCase rest).
  unfold toLowerCase in *. now rewrite mapChars_append, Hm.
Qed.

Lemma includes_step c r n :
  includes (String c r) n = String.prefix n (String c r) || includes r n.
Proof. reflexivity. Qed.

(** A text without an occurrence comes back from [scan] in one piece. *)
Lemma scan_no_occurrence t s seg :
  includes (toLowerCase s) (toLowerCase t) = false -> RegExp.scan t seg s = [seg ++ s].
Proof.
  revert seg. induction s as [|c r IH]; intros seg H.
  - simp scan. now rewrite append_empty_r.
  - change (toLowerCase (String c r)) with (String (lowerChar c) (toLowerCase r)) in H.
    rewrite includes_step in H. apply orb_false_iff in H as [Hp Hr].
    rewrite scan_unfold.
    destruct (RegExp.matchAt t (String c r)) as [[m rest]|] eqn:M.
    + apply matchAt_prefix in M.
      change (toLowerCase (String c r)) with (String (lowerChar c) (toLowerCase r)) in M.
      congruence.
    + rewrite (IH _ Hr), append_assoc. reflexivity.
Qed.

(** A text with an occurrence has a matched piece among those of [scan]. *)
Lemma scan_finds_occurrence t s seg :
  t <> "" -> includes (toLowerCase s) (toLowerCase t) = true ->
  exists m, In m (RegExp.scan t seg s) /\ toLowerCase m = toLowerCase t.
Proof.
  intros Ht. revert seg. induction s as [|c r IH]; intros seg H.
  - destruct t; [contradiction | discriminate H].
  - rewrite scan_unfold.
    destruct (RegExp.matchAt t (String c r)) as [[m rest]|] eqn:M.
    + destruct (matchAt_Some _ _ _ _ M) as [_ Hm].
      destruct m as [|m0 m]; [destruct t; [contradiction | discriminate Hm]|].
      exists (String m0 m). split; [right; now left | exact Hm].
    + apply matchAt_None in M.
      change (toLowerCase (String c r)) with (String (lowerChar c) (toLowerCase r)) in H, M.
      rewrite includes_step, M in H. cbn [orb] in H.
      now apply IH.
Qed.

(** X9: with a search that is not blank, a field gets a marked span
    exactly when the search string occurs in its text, case ignored; a
    text without an occurrence is rendered as one unmarked span holding
    the whole text. *)
Theorem highlight_marks_iff_occurs (st : State) (value : string) :
  blank (searchTerm st) = false ->
  exists spans,
    highlightMatch st value = Some (Spans spans)
    /\ ((exists seg, In (seg, true) spans)
        <-> includes (toLowerCase value) (searchTermLower st) = true)
    /\ (includes (toLowerCase value) (searchTermLower st) = false ->
        spans = [(value, false)]).
Proof.
  intros B.
  assert (Ht : searchTermLower st <> "").
  { intros E. apply searchTermLower_empty in E. congruence. }
  assert (Hl : toLowerCase (searchTermLower st) = searchTermLower st)
    by apply toLowerCase_idempotent.
  unfold highlightMatch. rewrite (proj2 (truthy_true _) Ht). cbn [negb].
  rewrite compile_escapeRegExp, (split_scan _ _ Ht). eexists. split; [reflexivity|].
  assert (Hnone : includes (toLowerCase value) (searchTermLower st) = false ->
                  map (fun segment =>
                         (segment, String.eqb (toLowerCase segment) (searchTermLower st)))
                      (RegExp.scan (searchTermLower st) "" value)
                  = [(value, false)]).
  { intros H. rewrite <- Hl in H. rewrite (scan_no_occurrence _ _ "" H). cbn [map append].
    destruct (String.eqb_spec (toLowerCase value) (searchTermLower st)) as [E|_];
      [|reflexivity].
    exfalso. rewrite E, Hl in H.
    assert (T : includes (searchTermLower st) (searchTermLower st) = true).
    { apply includes_spec. exists "", "". cbn. now rewrite append_empty_r. }
    congruence. }
  split; [split|exact Hnone].
  - intros [seg Hin].
    destruct (includes (toLowerCase value) (searchTermLower st)) eqn:I; [reflexivity|].
    rewrite (Hnone eq_refl) in Hin. destruct Hin as [Hin|[]]. discriminate Hin.
  - intros I. rewrite <- Hl in I.
    destruct (scan_finds_occurrence _ _ "" Ht I) as [m [Hin Hm]].
    exists m. apply in_map_iff. exists m. split; [|exact Hin].
    rewrite Hm, Hl, String.eqb_refl. reflexivity.
Qed.

Lemma highlight_marks_iff_occurs_witness :
  exists spans,
    highlightMatch (setSearchTerm "2024" demoState) "30B555BB" = Some (Spans spans)
    /\ ((exists seg, In (seg, true) spans)
        <-> includes (toLowerCase "30B555BB")
                     (searchTermLower (setSearchTerm "2024" demoState)) = true)
    /\ (includes (toLowerCase "30B555BB")
                 (searchTermLower (setSearchTerm "2024" demoState)) = false ->
        spans = [("30B555BB", false)]).
Proof.
  exact (highlight_marks_iff_occurs (setSearchTerm "2024" demoState) "30B555BB" eq_refl).
Defined.

End HighlightMore.

(** ** How the operations compose *)

Section Composition.

Import Js.

Lemma filter_twice {A} (p : A -> bool) l : filter p (filter p l) = filter p l.
Proof.
  induction l as [|x l IH]; cbn; [reflexivity|].
  destruct (p x) eqn:E; cbn; rewrite ?E, IH; reflexivity.
Qed.

Lemma filter_swap {A} (p q : A -> bool) l : filter p (filter q l) = filter q (filter p l).
Proof.
  induction l as [|x l IH]; cbn; [reflexivity|].
  destruct (p x) eqn:P; destruct (q x) eqn:Q; cbn; rewrite ?P, ?Q, IH; reflexivity.
Qed.

(** X10: deleting the same id a second time changes nothing any more,
    and two deletions leave the same store in either order. *)
Theorem delete_idempotent_and_commutes (i j : string) (st : State) (w : World) :
  handleDelete i (fst (handleDelete i st w)) w = handleDelete i st w
  /\ entries (fst (handleDelete i (fst (handleDelete j st w)) w))
     = entries (fst (handleDelete j (fst (handleDelete i st w)) w)).
Proof.
  split.
  - rewrite !handleDelete_cases. cbv zeta.
    destruct (editingId st) as [e|] eqn:Ed.
    + destruct (String.eqb e i) eqn:E; cbn [fst entries editingId form searchTerm];
        rewrite ?E, filter_twice; reflexivity.
    + cbn [fst entries editingId form searchTerm]. rewrite filter_twice. reflexivity.
  - assert (E : forall a s, entries (fst (handleDelete a s w))
                            = filter (fun e => negb (String.eqb (id e) a)) (entries s)).
    { intros a s. rewrite handleDelete_cases. cbv zeta.
      destruct (editingId s) as [e|]; [destruct (String.eqb e a)|]; reflexivity. }
    rewrite !E. apply filter_swap.
Qed.

(** X11: creating an entry and then deleting the id it was given brings
    the store back, provided no entry had that id before. *)
Theorem create_then_delete_restores (st : State) (w w' : World) :
  editingId st = None ->
  blank (Form.plateNumber (form st)) = false ->
  (forall x, In x (entries st) -> id x <> token w (cursor w)) ->
  let st1 := fst (handleSubmit st w) in
  List.length (entries st1) = S (List.length (entries st))
  /\ entries (fst (handleDelete (token w (cursor w)) st1 w')) = entries st.
Proof.
  intros Ed Hb Hfresh. cbv zeta.
  pose proof (handleSubmit_placement st w Hb) as Hp. rewrite Ed in Hp.
  split; [now rewrite Hp|].
  rewrite handleDelete_cases. cbv zeta.
  assert (E : forall f e s,
            entries (mkState (filter (fun x => negb (String.eqb (id x) (token w (cursor w))))
                                     (entries (fst (handleSubmit st w)))) f e s)
            = entries st).
  { intros f e s. cbn [entries]. rewrite Hp. cbn [filter].
    replace (id (committedEntry st w)) with (token w (cursor w))
      by (cbn; unfold committedId; now rewrite Ed).
    rewrite String.eqb_refl. cbn [negb].
    clear Hp. induction (entries st) as [|x l IH]; cbn; [reflexivity|].
    destruct (String.eqb_spec (id x) (token w (cursor w))) as [Ex|_].
    - exfalso. apply (Hfresh x); [now left | exact Ex].
    - cbn. rewrite IH; [reflexivity|]. intros y Hy. apply Hfresh. now right. }
  destruct (editingId (fst (handleSubmit st w))) as [e|];
    [destruct (String.eqb e (token w (cursor w)))|]; cbn [fst]; apply E.
Qed.

Lemma create_then_delete_restores_witness :
  let st := run demoWorld (typing "01A001AA" "10000" "3000" "") in
  let w := snd (initialState demoWorld) in
  entries (fst (handleDelete (token w (cursor w)) (fst (handleSubmit st w)) w)) = entries st.
Proof.
  refine (proj2 (create_then_delete_restores
                   (run demoWorld (typing "01A001AA" "10000" "3000" ""))
                   (snd (initialState demoWorld)) (snd (initialState demoWorld))
                   eq_refl eq_refl _)).
  intros x [<-|[<-|[]]]; discriminate.
Defined.

(** Relay puts the page, and the generator, exactly where mounting the
    page in the same world puts them, whatever the state before. *)
Lemma relay_is_remount (st : State) (w : World) :
  handleRelay st w = initialState w.
Proof. reflexivity. Qed.

(** X12: which handlers can touch what.  The store changes only on
    submit, delete and relay; the search string only on a search input
    and on relay; the draft and [editingId] never change on a search
    input. *)
Theorem handlers_frame (ev : Event) (st : State) (w : World) :
  let st' := fst (handle ev st w) in
  (entries st' <> entries st -> ev = Submit \/ (exists i, ev = Delete i) \/ ev = Relay)
  /\ (searchTerm st' <> searchTerm st -> (exists v, ev = Search v) \/ ev = Relay)
  /\ ((exists v, ev = Search v) -> form st' = form st /\ editingId st' = editingId st).
Proof.
  cbv zeta. destruct ev as [field value|value| |i|i| |]; cbn [handle].
  - split; [|split]; [intros H; now elim H | intros H; now elim H | intros [v [=]]].
  - split; [|split]; [intros H; now elim H | intros _; left; now exists value |].
    intros _. split; reflexivity.
  - split; [|split]; [intros _; now left | | intros [v [=]]].
    intros H. exfalso. apply H.
    destruct (String.eqb_spec (trim (Form.plateNumber (form st))) "") as [E|E].
    + now rewrite (handleSubmit_blank st w E).
    + destruct (handleSubmit_commit st w E) as [w' [-> _]]. reflexivity.
  - rewrite handleEdit_cases. cbn [fst].
    split; [|split]; [| | intros [v [=]]];
      intros H; exfalso; apply H; destruct (find _ (entries st)); reflexivity.
  - split; [|split]; [intros _; right; left; now exists i | | intros [v [=]]].
    rewrite handleDelete_cases. cbv zeta. cbn [fst].
    intros H. exfalso. apply H.
    destruct (editingId st) as [e|]; [destruct (String.eqb e i)|]; reflexivity.
  - split; [|split]; [| | intros [v [=]]]; intros H; now elim H.
  - split; [|split]; [intros _; now (right; right) | intros _; now right | intros [v [=]]].
Qed.

End Composition.

